(** * Colorbin: quantity-to-colour binning (chorogrid/Chorogrid.py)

    A shallow embedding of the [Colorbin] class and proofs about its
    fenceposts, bin assignment, bin counts and complementary colours.

    Modelling conventions.
    - The quantities and fenceposts an object holds are exact rationals
      ([Q]), the values of finite floats: [==] on them is [Qeq], [>=] is
      [Qle_bool] with swapped arguments.  Infinite quantities are outside
      the carrier.  The class methods are embedded over this carrier; what
      is proved of them in general depends on the order of the quantities
      and on index arithmetic only.
    - Where the code's binary64 arithmetic decides a result (the grey level
      of a colour, the rounding of [i * (n / P)], overflow of the midpoint),
      the computation is embedded over the kernel's binary64 floats
      ([PrimFloat]), in [grey_of] and in the module [Binary64].
    - The module never imports numpy: the global name [np] is a parameter of
      [__init__], [Unbound] as the module is shipped.
    - A Python exception is a [Raise e] result; every method returns
      [result Colorbin], the object after the call.  Partial updates of an
      object whose method raised are not observable in the model.
    - [str] values are [string]s whose characters are the code points
      0..255.
    - [list.sort] is a stable ascending sort. *)

From Stdlib Require Import ZArith QArith Qround Lqa Lia.
From Stdlib Require Import Sorting.Sorted Sorting.Permutation SetoidList.
From Stdlib Require Import Strings.Ascii Strings.String.
From Stdlib Require Import Floats Uint63.
From stdpp Require Import base list.

Set Warnings "-inexact-float".

Local Open Scope Z_scope.

(** ** Exceptions and the result monad *)

Inductive exn : Type :=
| ValueError
| ZeroDivisionError
| IndexError
| NameError
| OverflowError.

Inductive result (A : Type) : Type :=
| Ok (a : A)
| Raise (e : exn).

Arguments Ok {A} a.
Arguments Raise {A} e.

Definition bind {A B : Type} (m : result A) (k : A -> result B) : result B :=
  match m with
  | Ok a => k a
  | Raise e => Raise e
  end.

Notation "'let*' x ':=' m 'in' k" := (bind m (fun x => k))
  (at level 10, x pattern, m at level 100, k at level 200).

(** A [for] loop over [xs] threading the loop state [s] through its body. *)
Fixpoint for_in {X S : Type} (xs : list X) (body : X -> S -> result S)
    (s : S) : result S :=
  match xs with
  | [] => Ok s
  | x :: xs' => let* s' := body x s in for_in xs' body s'
  end.

(** [range(a, b)] *)
Definition range (a b : nat) : list nat := seq a (b - a).

(** ** Python built-ins used by the class *)

Module Py.

(** [l[i]], with Python's negative indices. *)
Definition getitem {A : Type} (l : list A) (i : Z) : result A :=
  let n := Z.of_nat (length l) in
  let j := if i <? 0 then i + n else i in
  if (j <? 0) || (n <=? j) then Raise IndexError
  else match l !! Z.to_nat j with
       | Some x => Ok x
       | None => Raise IndexError
       end.

(** [l[i] = v] *)
Definition setitem {A : Type} (l : list A) (i : Z) (v : A) : result (list A) :=
  let n := Z.of_nat (length l) in
  let j := if i <? 0 then i + n else i in
  if (j <? 0) || (n <=? j) then Raise IndexError
  else Ok (<[Z.to_nat j := v]> l).

Definition Qltb (x y : Q) : bool := negb (Qle_bool y x).

(** [min(l)]: the first smallest element; [ValueError] on an empty list. *)
Definition min (l : list Q) : result Q :=
  match l with
  | [] => Raise ValueError
  | x :: l' => Ok (fold_left (fun best y => if Qltb y best then y else best) l' x)
  end.

(** [max(l)]: the first largest element; [ValueError] on an empty list. *)
Definition max (l : list Q) : result Q :=
  match l with
  | [] => Raise ValueError
  | x :: l' => Ok (fold_left (fun best y => if Qltb best y then y else best) l' x)
  end.

(** [x / n] for a float [x] and an int [n]. *)
Definition truediv (x : Q) (n : Z) : result Q :=
  if n =? 0 then Raise ZeroDivisionError else Ok (x / inject_Z n)%Q.

(** [int(x)]: truncation towards zero. *)
Definition int (x : Q) : Z := Z.quot (Qnum x) (Zpos (Qden x)).

(** [round(x, d)]: to [d] decimals, halves to the even neighbour. *)
Definition round_half_even (x : Q) : Z :=
  let f := Qfloor x in
  let r := (x - inject_Z f)%Q in
  match (r ?= 1 # 2)%Q with
  | Lt => f
  | Gt => f + 1
  | Eq => if Z.even f then f else f + 1
  end.

Definition pow10 (d : Z) : Q :=
  if d <? 0 then (1 # Pos.pow 10 (Z.to_pos (- d)))
  else inject_Z (10 ^ d).

Definition round (x : Q) (d : Z) : Q :=
  (inject_Z (round_half_even (x * pow10 d)) / pow10 d)%Q.

(** [l.sort()] on floats: stable, ascending. *)
Fixpoint insert (x : Q) (l : list Q) : list Q :=
  match l with
  | [] => [x]
  | y :: l' => if Qle_bool x y then x :: y :: l' else y :: insert x l'
  end.

Definition sort (l : list Q) : list Q := foldr insert [] l.

(** [s[a:b]] and [s[a:]] on [str], for [0 <= a <= b]. *)
Fixpoint str_drop (n : nat) (s : string) : string :=
  match n, s with
  | O, _ => s
  | S _, EmptyString => EmptyString
  | S n', String _ s' => str_drop n' s'
  end.

Fixpoint str_take (n : nat) (s : string) : string :=
  match n, s with
  | O, _ => EmptyString
  | S _, EmptyString => EmptyString
  | S n', String c s' => String c (str_take n' s')
  end.

Definition slice (s : string) (a b : nat) : string :=
  str_take (b - a) (str_drop a s).

(** [int(s, 16)]: surrounding whitespace, an optional sign, an optional
    [0x] prefix, then hexadecimal digits that single underscores may
    separate; anything else is a [ValueError].  The whitespace [int]
    strips is tab to carriage return, space, and the two Latin-1 spaces
    U+0085 and U+00A0. *)
Definition code (c : ascii) : Z := Z.of_N (N_of_ascii c).

Definition is_space (c : ascii) : bool :=
  let n := code c in
  ((9 <=? n) && (n <=? 13)) || (n =? 32) || (n =? 133) || (n =? 160).

Definition hex_value (c : ascii) : option Z :=
  let n := code c in
  if (48 <=? n) && (n <=? 57) then Some (n - 48)
  else if (97 <=? n) && (n <=? 102) then Some (n - 87)
  else if (65 <=? n) && (n <=? 70) then Some (n - 55)
  else None.

Definition is_underscore (c : ascii) : bool := code c =? 95.

Fixpoint lstrip (cs : list ascii) : list ascii :=
  match cs with
  | c :: cs' => if is_space c then lstrip cs' else cs
  | [] => []
  end.

Definition strip (cs : list ascii) : list ascii :=
  rev (lstrip (rev (lstrip cs))).

(** The digits after sign and prefix; [acc] is the value read so far.  An
    underscore must be followed by a digit. *)
Fixpoint digits16 (cs : list ascii) (acc : Z) : option Z :=
  match cs with
  | [] => Some acc
  | c :: cs' =>
      if is_underscore c then
        match cs' with
        | d :: _ =>
            match hex_value d with
            | Some _ => digits16 cs' acc
            | None => None
            end
        | [] => None
        end
      else
        match hex_value c with
        | Some v => digits16 cs' (16 * acc + v)
        | None => None
        end
  end.

Definition skip_prefix16 (cs : list ascii) : list ascii :=
  match cs with
  | z :: x :: cs' =>
      if (code z =? 48) && ((code x =? 120) || (code x =? 88)) then
        match cs' with
        | u :: cs'' => if is_underscore u then cs'' else cs'
        | [] => cs'
        end
      else cs
  | _ => cs
  end.

Definition unsigned16 (cs : list ascii) : option Z :=
  match skip_prefix16 cs with
  | [] => None
  | (c :: _) as ds => if is_underscore c then None else digits16 ds 0
  end.

Definition int16 (s : string) : result Z :=
  let parsed :=
    match strip (list_ascii_of_string s) with
    | (c :: cs') as cs =>
        if code c =? 43 then unsigned16 cs'
        else if code c =? 45 then Z.opp <$> unsigned16 cs'
        else unsigned16 cs
    | [] => None
    end in
  match parsed with
  | Some v => Ok v
  | None => Raise ValueError
  end.

(** [float(z)] for an int, as in [0.299 * r] or [n / P]: exact up to
    [2^53], which covers every list length and channel value here. *)
Definition float_of_int (z : Z) : float :=
  if z <? 0 then PrimFloat.opp (PrimFloat.of_uint63 (Uint63.of_Z (- z)))
  else PrimFloat.of_uint63 (Uint63.of_Z z).

(** [int(x)] for a binary64 float: truncation towards zero; [ValueError]
    for NaN, [OverflowError] for an infinity. *)
Definition int_of_float (x : float) : result Z :=
  match Prim2SF x with
  | S754_zero _ => Ok 0
  | S754_finite s m e =>
      let v := match e with
               | Z0 => Zpos m
               | Zpos p => Zpos m * 2 ^ Zpos p
               | Zneg p => Zpos m / 2 ^ Zpos p
               end in
      Ok (if s then - v else v)
  | S754_infinity _ => Raise OverflowError
  | S754_nan => Raise ValueError
  end.

End Py.

(** ** The class *)

(** A quantity as the caller passes it in: NaN or a finite value. *)
Inductive pyfloat : Type :=
| NaN
| Real (q : Q).

Definition isnan (x : pyfloat) : bool :=
  match x with
  | NaN => true
  | Real _ => false
  end.

(** The global name [np] of the module.  Chorogrid.py has no import of
    numpy and no other binding of [np], so the name is [Unbound] in the
    module as shipped; it is [Numpy] once a caller has bound it to numpy in
    the module's namespace. *)
Inductive np_global : Type :=
| Unbound
| Numpy.

(** [np.isnan(x)]: the lookup of [np] comes first. *)
Definition np_isnan (np : np_global) (x : pyfloat) : result bool :=
  match np with
  | Unbound => Raise NameError
  | Numpy => Ok (isnan x)
  end.

(** The values of a list of floats without NaN. *)
Fixpoint drop_nan (quantities : list pyfloat) : list Q :=
  match quantities with
  | [] => []
  | NaN :: l => drop_nan l
  | Real q :: l => q :: drop_nan l
  end.

Record Colorbin : Type := mkColorbin {
  quantities : list Q;
  colors_in : list string;
  proportional : bool;
  bin_min : Q;
  bin_max : Q;
  bin_mid : Q;
  decimals : option Z;
  fenceposts : list Q;
  labels : list string;
  fencepostlabels : list string;
  colors_out : list string;
  bin_counts : list Z;
  complements : option (list string)
}.

Definition with_fenceposts (self : Colorbin) (v : list Q) : Colorbin :=
  mkColorbin (quantities self) (colors_in self) (proportional self)
    (bin_min self) (bin_max self) (bin_mid self) (decimals self)
    v (labels self) (fencepostlabels self) (colors_out self)
    (bin_counts self) (complements self).

Definition with_labels (self : Colorbin) (v w : list string) : Colorbin :=
  mkColorbin (quantities self) (colors_in self) (proportional self)
    (bin_min self) (bin_max self) (bin_mid self) (decimals self)
    (fenceposts self) v w (colors_out self)
    (bin_counts self) (complements self).

Definition with_colors (self : Colorbin) (v : list string) (w : list Z)
    : Colorbin :=
  mkColorbin (quantities self) (colors_in self) (proportional self)
    (bin_min self) (bin_max self) (bin_mid self) (decimals self)
    (fenceposts self) (labels self) (fencepostlabels self) v
    w (complements self).

Definition with_complements (self : Colorbin) (v : option (list string))
    : Colorbin :=
  mkColorbin (quantities self) (colors_in self) (proportional self)
    (bin_min self) (bin_max self) (bin_mid self) (decimals self)
    (fenceposts self) (labels self) (fencepostlabels self) (colors_out self)
    (bin_counts self) v.

Section Methods.

(** [str(x)] of a float, which also is how ['{}'.format(x)] prints it. *)
Variable float_str : Q -> string.

(** [_calc_fenceposts] with exact arithmetic: the steps of the proportional
    branch and the quotient [n / P] of the quantile branch are rationals
    here.  [Binary64] below has the same lines with the rounding of the
    interpreter. *)
Definition _calc_fenceposts (self : Colorbin) : result Colorbin :=
  let P := length (colors_in self) in
  let* posts :=
    if proportional self then
      let* d1 := Py.truediv (bin_mid self - bin_min self) (Z.of_nat P) in
      let step_1 := (d1 * 2)%Q in
      let* d2 := Py.truediv (bin_max self - bin_mid self) (Z.of_nat P) in
      let step_2 := (d2 * 2)%Q in
      for_in (range 0 (P + 1)) (fun i posts =>
        let* half := Py.truediv (inject_Z (Z.of_nat P)) 2 in
        if Py.Qltb (inject_Z (Z.of_nat i)) half then
          Ok (posts ++ [bin_min self + inject_Z (Z.of_nat i) * step_1])%Q
        else if Qeq_bool (inject_Z (Z.of_nat i)) half then
          Ok (posts ++ [bin_mid self])
        else
          Ok (posts ++ [bin_max self
                        - inject_Z (Z.of_nat P - Z.of_nat i) * step_2])%Q) []
    else
      let quant_sorted := Py.sort (quantities self) in
      let* step :=
        Py.truediv (inject_Z (Z.of_nat (length quant_sorted))) (Z.of_nat P) in
      let* posts :=
        for_in (range 0 P) (fun i posts =>
          let* q :=
            Py.getitem quant_sorted (Py.int (inject_Z (Z.of_nat i) * step)) in
          Ok (posts ++ [q])) [] in
      let* q := Py.getitem quant_sorted (-1) in
      Ok (posts ++ [q]) in
  match decimals self with
  | Some d => Ok (with_fenceposts self (map (fun x => Py.round x d) posts))
  | None => Ok (with_fenceposts self posts)
  end.

(** The body of the loop of [_calc_labels]; the third component is the
    loop variable [n2], unbound until the first iteration. *)
Definition labels_step (st : list string * list string * option Q)
    (p : Q * Q) : list string * list string * option Q :=
  let '(labels, fencepostlabels, _) := st in
  let '(n1, n2) := p in
  (labels ++ [(float_str n1 ++ "-" ++ float_str n2)%string],
   fencepostlabels ++ [float_str n1], Some n2).

Definition _calc_labels (self : Colorbin) : result Colorbin :=
  let pairs := zip (removelast (fenceposts self)) (tail (fenceposts self)) in
  let '(labels, fencepostlabels, last) :=
    fold_left labels_step pairs ([], [], None) in
  match last with
  | Some n2 => Ok (with_labels self labels (fencepostlabels ++ [float_str n2]))
  | None => Raise NameError
  end.

(** The inner loop of [_calc_colors]: the bin of one quantity. *)
Definition find_bin (self : Colorbin) (qty : Q) : result nat :=
  for_in (range 1 (length (colors_in self))) (fun i bin_ =>
    let* post := Py.getitem (fenceposts self) (Z.of_nat i) in
    if Qle_bool post qty then Ok i else Ok bin_) 0%nat.

Definition _calc_colors (self : Colorbin) : result Colorbin :=
  let* (colors_out, bin_counts) :=
    for_in (quantities self) (fun qty '(colors_out, bin_counts) =>
      let* bin_ := find_bin self qty in
      let* color := Py.getitem (colors_in self) (Z.of_nat bin_) in
      let* count := Py.getitem bin_counts (Z.of_nat bin_) in
      let* bin_counts := Py.setitem bin_counts (Z.of_nat bin_) (count + 1) in
      Ok (colors_out ++ [color], bin_counts))
      ([], replicate (length (colors_in self)) 0) in
  Ok (with_colors self colors_out bin_counts).

Definition set_decimals (self : Colorbin) (decimals : option Z) : Colorbin :=
  mkColorbin (quantities self) (colors_in self) (proportional self)
    (bin_min self) (bin_max self) (bin_mid self) decimals
    (fenceposts self) (labels self) (fencepostlabels self) (colors_out self)
    (bin_counts self) (complements self).

Definition recalc (self : Colorbin) (fenceposts : bool) : result Colorbin :=
  let* self := if fenceposts then _calc_fenceposts self else Ok self in
  let* self := _calc_labels self in
  _calc_colors self.

Definition __init__ (np : np_global) (quantities : list pyfloat)
    (colors_in : list string) (proportional : bool) (decimals : option Z)
    : result Colorbin :=
  let* kept :=
    for_in quantities (fun x kept =>
      let* nan := np_isnan np x in
      if negb nan then Ok (kept ++ [x]) else Ok kept) [] in
  let quantities := drop_nan kept in
  let* bin_min := Py.min quantities in
  let* bin_max := Py.max quantities in
  let* bin_mid := Py.truediv (bin_min + bin_max) 2 in
  let self :=
    mkColorbin quantities colors_in proportional bin_min bin_max bin_mid
      None [] [] [] [] [] None in
  let* self := recalc self true in
  Ok (with_complements self None).

(** The grey level of a colour, [(0.299*r + 0.587*g + 0.114*b) / 256], in
    binary64 as the code computes it. *)
Definition grey_of (color : string) : result float :=
  let hex := Py.str_drop 1 color in
  let* r := Py.int16 (Py.slice hex 0 2) in
  let* g := Py.int16 (Py.slice hex 2 4) in
  let* b := Py.int16 (Py.slice hex 4 6) in
  Ok ((0.299 * Py.float_of_int r + 0.587 * Py.float_of_int g
       + 0.114 * Py.float_of_int b) / Py.float_of_int 256)%float.

Definition calc_complements (self : Colorbin) (cutoff : float)
    (color_below color_above : string) : result Colorbin :=
  let* complements :=
    for_in (colors_out self) (fun color complements =>
      let* grey := grey_of color in
      if (grey <? cutoff)%float then Ok (complements ++ [color_below])
      else Ok (complements ++ [color_above])) [] in
  Ok (with_complements self (Some complements)).

End Methods.

(** ** The arithmetic of the fenceposts in binary64

    The same lines of [__init__] and [_calc_fenceposts], with every float
    operation the one of binary64.  The quantities of the quantile branch
    stay rationals: the branch compares and copies them, its arithmetic is
    on the list lengths. *)

Module Binary64.

(** [x / n] for a float [x] and an int [n]. *)
Definition truediv (x : float) (n : Z) : result float :=
  if n =? 0 then Raise ZeroDivisionError
  else Ok (x / Py.float_of_int n)%float.

(** [self.bin_mid = (self.bin_min + self.bin_max) / 2] *)
Definition bin_mid (bin_min bin_max : float) : float :=
  ((bin_min + bin_max) / Py.float_of_int 2)%float.



(** The quantile branch of [_calc_fenceposts], for [P] colours. *)
Definition quantile_posts (quantities : list Q) (P : nat)
    : result (list Q) :=
  let quant_sorted := Py.sort quantities in
  let* step :=
    truediv (Py.float_of_int (Z.of_nat (length quant_sorted))) (Z.of_nat P) in
  let* posts :=
    for_in (range 0 P) (fun i posts =>
      let* j := Py.int_of_float (Py.float_of_int (Z.of_nat i) * step)%float in
      let* q := Py.getitem quant_sorted j in
      Ok (posts ++ [q])) [] in
  let* q := Py.getitem quant_sorted (-1) in
  Ok (posts ++ [q]).

End Binary64.

(** * Proofs *)

(** ** The monad, loops and indexing *)

Lemma bind_Ok {A B : Type} (m : result A) (k : A -> result B) (b : B) :
  bind m k = Ok b <-> exists a, m = Ok a /\ k a = Ok b.
Proof.
  destruct m as [a|e]; simpl; split.
  - intros H. exists a. split; [reflexivity | exact H].
  - intros (a' & Ha & Hk). injection Ha as ->. exact Hk.
  - discriminate.
  - intros (a' & Ha & _). discriminate.
Qed.

(** A loop whose body appends one computed item per element is a map. *)
Lemma for_in_append {X Y : Type} (body : X -> list Y -> result (list Y))
    (g : X -> Y) (xs : list X) (acc : list Y) :
  (forall x acc, x ∈ xs -> body x acc = Ok (acc ++ [g x])) ->
  for_in xs body acc = Ok (acc ++ map g xs).
Proof.
  revert acc. induction xs as [|x xs IH]; intros acc Hf; simpl.
  - by rewrite app_nil_r.
  - rewrite Hf by left. simpl. rewrite IH.
    + by rewrite <- app_assoc.
    + intros y acc' Hy. apply Hf. by right.
Qed.

(** The same loop fails as soon as one item fails. *)
Lemma for_in_append_Ok {X Y : Type} (f : X -> result Y) (xs : list X)
    (acc out : list Y) :
  for_in xs (fun x acc => let* y := f x in Ok (acc ++ [y])) acc = Ok out ->
  exists ys, out = acc ++ ys /\ Forall2 (fun x y => f x = Ok y) xs ys.
Proof.
  revert acc. induction xs as [|x xs IH]; intros acc; simpl.
  - intros [= <-]. exists []. split; [by rewrite app_nil_r | constructor].
  - destruct (f x) as [y|e] eqn:Hy; simpl; [|discriminate].
    intros H. destruct (IH _ H) as (ys & -> & Hys).
    exists (y :: ys). split; [by rewrite <- app_assoc | by constructor].
Qed.

Lemma getitem_nat {A : Type} (l : list A) (i : nat) (x : A) :
  l !! i = Some x -> Py.getitem l (Z.of_nat i) = Ok x.
Proof.
  intros H. pose proof (lookup_lt_Some _ _ _ H) as Hlt.
  unfold Py.getitem.
  destruct (Z.ltb_spec (Z.of_nat i) 0) as [?|_]; [lia|].
  destruct (Z.ltb_spec (Z.of_nat i) 0) as [?|_]; [lia|].
  destruct (Z.leb_spec (Z.of_nat (length l)) (Z.of_nat i)) as [?|_]; [lia|].
  simpl. by rewrite Nat2Z.id, H.
Qed.

Lemma getitem_nat_Ok {A : Type} (l : list A) (i : nat) (x : A) :
  Py.getitem l (Z.of_nat i) = Ok x -> l !! i = Some x.
Proof.
  unfold Py.getitem.
  destruct (Z.ltb_spec (Z.of_nat i) 0) as [?|_]; [lia|].
  destruct (_ || _); [discriminate|].
  rewrite Nat2Z.id. destruct (l !! i); [by intros [= ->] | discriminate].
Qed.

Lemma getitem_last {A : Type} (l : list A) (x : A) :
  last l = Some x -> Py.getitem l (-1) = Ok x.
Proof.
  intros H. unfold Py.getitem. simpl.
  assert (Hlen : (0 < length l)%nat).
  { destruct l; [discriminate | simpl; lia]. }
  destruct (Z.ltb_spec (-1 + Z.of_nat (length l)) 0) as [?|_]; [lia|].
  destruct (Z.leb_spec (Z.of_nat (length l)) (-1 + Z.of_nat (length l)))
    as [?|_]; [lia|].
  simpl. rewrite last_lookup in H.
  replace (Z.to_nat (-1 + Z.of_nat (length l))) with (pred (length l)) by lia.
  by rewrite H.
Qed.

Lemma setitem_nat {A : Type} (l : list A) (i : nat) (v : A) :
  (i < length l)%nat -> Py.setitem l (Z.of_nat i) v = Ok (<[i := v]> l).
Proof.
  intros Hlt. unfold Py.setitem.
  destruct (Z.ltb_spec (Z.of_nat i) 0) as [?|_]; [lia|].
  destruct (Z.ltb_spec (Z.of_nat i) 0) as [?|_]; [lia|].
  destruct (Z.leb_spec (Z.of_nat (length l)) (Z.of_nat i)) as [?|_]; [lia|].
  simpl. by rewrite Nat2Z.id.
Qed.

Lemma elem_of_range (a b i : nat) : i ∈ range a b <-> (a <= i < b)%nat.
Proof. unfold range. rewrite elem_of_seq. lia. Qed.

Lemma range_succ (a b : nat) :
  (a <= b)%nat -> range a (S b) = range a b ++ [b].
Proof.
  intros H. unfold range. replace (S b - a)%nat with (S (b - a)) by lia.
  rewrite seq_S. do 2 f_equal. lia.
Qed.

Lemma for_in_pure {X S : Type} (body : X -> S -> result S) (g : S -> X -> S)
    (xs : list X) (s : S) :
  (forall x s, x ∈ xs -> body x s = Ok (g s x)) ->
  for_in xs body s = Ok (fold_left g xs s).
Proof.
  revert s. induction xs as [|x xs IH]; intros s Hb; simpl; [done|].
  rewrite Hb by left. simpl. apply IH. intros y s' Hy. apply Hb. by right.
Qed.

(** ** Bin assignment *)

(** The bin the inner loop of [_calc_colors] computes. *)
Definition bin_step (posts : list Q) (q : Q) (b i : nat) : nat :=
  match posts !! i with
  | Some post => if Qle_bool post q then i else b
  | None => b
  end.

Definition bin_of (posts : list Q) (P : nat) (q : Q) : nat :=
  fold_left (bin_step posts q) (range 1 P) 0%nat.

Lemma find_bin_Ok (self : Colorbin) (q : Q) :
  (length (colors_in self) <= length (fenceposts self))%nat ->
  find_bin self q
  = Ok (bin_of (fenceposts self) (length (colors_in self)) q).
Proof.
  intros Hlen. unfold find_bin, bin_of. apply for_in_pure.
  intros i b Hi. apply elem_of_range in Hi.
  destruct (lookup_lt_is_Some_2 (fenceposts self) i) as [post Hpost]; [lia|].
  rewrite (getitem_nat _ _ _ Hpost). unfold bin_step. rewrite Hpost. simpl.
  by destruct (Qle_bool post q).
Qed.

Lemma bin_of_succ (posts : list Q) (P : nat) (q : Q) :
  (1 <= P)%nat ->
  bin_of posts (S P) q = bin_step posts q (bin_of posts P q) P.
Proof.
  intros HP. unfold bin_of. rewrite range_succ by done.
  by rewrite fold_left_app.
Qed.

(** What the spec calls the bin index of [q]: [b] is the largest index of
    [1 .. P-1] whose fencepost is at most [q], or [0] when there is none. *)
Definition is_bin_index (posts : list Q) (P : nat) (q : Q) (b : nat) : Prop :=
  ((b = 0%nat /\ forall i post, (1 <= i < P)%nat -> posts !! i = Some post ->
                  ~ (post <= q)%Q)
   \/ ((1 <= b < P)%nat
       /\ (exists post, posts !! b = Some post /\ (post <= q)%Q)
       /\ forall i post, (b < i < P)%nat -> posts !! i = Some post ->
            ~ (post <= q)%Q)).

Lemma bin_of_is_bin_index (posts : list Q) (P : nat) (q : Q) :
  is_bin_index posts P q (bin_of posts P q).
Proof.
  induction P as [|P IH].
  - left. split; [reflexivity | intros; lia].
  - destruct (decide (P = 0%nat)) as [->|HP].
    { left. split; [reflexivity | intros; lia]. }
    rewrite bin_of_succ by lia. unfold bin_step.
    assert (Hext : forall b, is_bin_index posts P q b ->
              (forall post, posts !! P = Some post -> ~ (post <= q)%Q) ->
              is_bin_index posts (S P) q b).
    { intros b [[-> Hn]|(Hb & Hpost & Hn)] HP'.
      - left. split; [done|]. intros i post Hi Hl.
        destruct (decide (i = P)) as [->|]; [by apply HP'|].
        apply (Hn i); [lia | done].
      - right. split; [lia|]. split; [done|]. intros i post Hi Hl.
        destruct (decide (i = P)) as [->|]; [by apply HP'|].
        apply (Hn i); [lia | done]. }
    destruct (posts !! P) as [post|] eqn:Hpost.
    + destruct (Qle_bool post q) eqn:Hle.
      * right. split; [lia|]. split.
        -- exists post. split; [done|]. by apply Qle_bool_iff.
        -- intros; lia.
      * apply Hext; [done|]. intros post' [= <-] Hle'.
        apply Qle_bool_iff in Hle'. congruence.
    + apply Hext; [done|]. intros post' [=].
Qed.

Lemma bin_of_lt (posts : list Q) (P : nat) (q : Q) :
  (1 <= P)%nat -> (bin_of posts P q < P)%nat.
Proof.
  intros HP. destruct (bin_of_is_bin_index posts P q) as [[-> _]|[? _]]; lia.
Qed.

(** The bin index is unique. *)
Lemma is_bin_index_unique (posts : list Q) (P : nat) (q : Q) (b b' : nat) :
  is_bin_index posts P q b -> is_bin_index posts P q b' -> b = b'.
Proof.
  intros Hb Hb'.
  destruct Hb as [[-> Hn]|(Hr & (post & Hl & Hle) & Hn)];
    destruct Hb' as [[-> Hn']|(Hr' & (post' & Hl' & Hle') & Hn')].
  - reflexivity.
  - exfalso. apply (Hn b' post'); [lia | done | done].
  - exfalso. apply (Hn' b post); [lia | done | done].
  - destruct (Nat.lt_trichotomy b b') as [?|[?|?]]; [|done|].
    + exfalso. apply (Hn b' post'); [lia | done | done].
    + exfalso. apply (Hn' b post); [lia | done | done].
Qed.

(** The colour of [q] and the number of quantities in bin [b]. *)
Definition color_of (self : Colorbin) (q : Q) : string :=
  nth (bin_of (fenceposts self) (length (colors_in self)) q)
      (colors_in self) EmptyString.

Fixpoint count_bin (posts : list Q) (P : nat) (b : nat) (qs : list Q) : Z :=
  match qs with
  | [] => 0
  | q :: qs' =>
      (if Nat.eqb (bin_of posts P q) b then 1 else 0) + count_bin posts P b qs'
  end.

Definition colors_body (self : Colorbin) (qty : Q)
    (st : list string * list Z) : result (list string * list Z) :=
  let (colors_out, bin_counts) := st in
  let* bin_ := find_bin self qty in
  let* color := Py.getitem (colors_in self) (Z.of_nat bin_) in
  let* count := Py.getitem bin_counts (Z.of_nat bin_) in
  let* bin_counts := Py.setitem bin_counts (Z.of_nat bin_) (count + 1) in
  Ok (colors_out ++ [color], bin_counts).

Lemma calc_colors_loop (self : Colorbin) (qs : list Q) (co : list string)
    (bc : list Z) :
  let P := length (colors_in self) in
  (1 <= P)%nat -> (P <= length (fenceposts self))%nat -> length bc = P ->
  exists bc',
    for_in qs (colors_body self) (co, bc)
    = Ok (co ++ map (color_of self) qs, bc')
    /\ length bc' = P
    /\ forall b, bc' !! b
         = (fun c => c + count_bin (fenceposts self) P b qs) <$> bc !! b.
Proof.
  intros P HP Hposts. revert co bc.
  induction qs as [|q qs IH]; intros co bc Hbc.
  - exists bc. simpl. rewrite app_nil_r. repeat split; [done|].
    intros b. destruct (bc !! b); simpl; [f_equal; lia | done].
  - simpl. rewrite find_bin_Ok by done. fold P. simpl.
    set (bq := bin_of (fenceposts self) P q).
    assert (Hbq : (bq < P)%nat) by by apply bin_of_lt.
    destruct (lookup_lt_is_Some_2 (colors_in self) bq) as [c Hc]; [done|].
    destruct (lookup_lt_is_Some_2 bc bq) as [n Hn]; [lia|].
    rewrite (getitem_nat _ _ _ Hc). simpl.
    rewrite (getitem_nat _ _ _ Hn). simpl.
    rewrite setitem_nat by lia. simpl.
    destruct (IH (co ++ [c]) (<[bq := n + 1]> bc)) as (bc' & Hrun & Hlen & Hcnt).
    { by rewrite length_insert. }
    exists bc'. split; [|split; [done|]].
    + rewrite Hrun. do 2 f_equal. rewrite <- app_assoc. simpl. do 2 f_equal.
      unfold color_of. fold P. fold bq.
      apply nth_lookup_Some with (d := EmptyString) in Hc. by rewrite <- Hc.
    + intros b. rewrite Hcnt. fold bq.
      destruct (decide (bq = b)) as [<-|Hne].
      * rewrite list_lookup_insert_eq by lia. rewrite Hn. simpl.
        rewrite Nat.eqb_refl. f_equal. lia.
      * rewrite list_lookup_insert_ne by done.
        destruct (Nat.eqb_spec bq b); [done|].
        destruct (bc !! b); simpl; [f_equal; lia | done].
Qed.

Lemma calc_colors_Ok (self : Colorbin) :
  let P := length (colors_in self) in
  (1 <= P)%nat -> (P <= length (fenceposts self))%nat ->
  _calc_colors self
  = Ok (with_colors self (map (color_of self) (quantities self))
          (map (fun b => count_bin (fenceposts self) P b (quantities self))
               (seq 0 P))).
Proof.
  intros P HP Hposts. unfold _calc_colors.
  destruct (calc_colors_loop self (quantities self) [] (replicate P 0))
    as (bc' & Hrun & Hlen & Hcnt); [done | done | by rewrite length_replicate |].
  fold P. unfold colors_body in Hrun. rewrite Hrun. simpl. do 2 f_equal.
  apply list_eq. intros b. rewrite Hcnt, list_lookup_fmap.
  destruct (decide (b < P)%nat) as [Hb|Hb].
  - rewrite lookup_replicate_2 by done. rewrite lookup_seq_lt by done. done.
  - rewrite (proj1 (lookup_replicate_None P 0 b)) by lia.
    by rewrite lookup_seq_ge by lia.
Qed.

(** ** Labels *)

Lemma labels_loop_last (float_str : Q -> string) (pairs : list (Q * Q))
    (st : list string * list string * option Q) :
  pairs <> [] \/ is_Some (st.2) ->
  is_Some ((fold_left (labels_step float_str) pairs st).2).
Proof.
  revert st. induction pairs as [|[n1 n2] pairs IH]; intros st H; simpl.
  - destruct H as [H|H]; [done | exact H].
  - apply IH. right. destruct st as [[ls fls] o]. simpl. by eexists.
Qed.

Lemma calc_labels_Ok (float_str : Q -> string) (self : Colorbin) :
  (2 <= length (fenceposts self))%nat ->
  exists ls fls, _calc_labels float_str self = Ok (with_labels self ls fls).
Proof.
  intros Hlen. unfold _calc_labels.
  set (pairs := zip _ _).
  assert (Hne : pairs <> []).
  { subst pairs. destruct (fenceposts self) as [|a [|b l]];
      simpl in *; [lia | lia | done]. }
  pose proof (labels_loop_last float_str pairs ([], [], None) (or_introl Hne))
    as Hlast.
  destruct (fold_left _ pairs _) as [[ls fls] [n2|]]; simpl in Hlast.
  - by eexists _, _.
  - by destruct Hlast.
Qed.

(** ** Rational arithmetic of the fencepost indices *)

Lemma int_floor (x : Q) : (0 <= x)%Q -> Py.int x = Qfloor x.
Proof.
  intros Hx. unfold Py.int. destruct x as [n d]. simpl.
  apply Z.quot_div_nonneg; [|lia].
  unfold Qle in Hx. simpl in Hx. lia.
Qed.

(** [int(i * (n / P))] is the integer quotient [i * n / P]. *)
Lemma int_step (i n P : Z) :
  0 <= i -> 0 <= n -> 0 < P ->
  Py.int (inject_Z i * (inject_Z n / inject_Z P)) = i * n / P.
Proof.
  intros Hi Hn HP.
  assert (HPq : ~ (inject_Z P == 0)%Q).
  { unfold Qeq. simpl. lia. }
  assert (Heq : (inject_Z i * (inject_Z n / inject_Z P)
                 == (i * n) # (Z.to_pos P))%Q).
  { unfold Qeq, Qdiv, Qmult, Qinv, inject_Z. simpl.
    destruct P as [|p|p]; [lia | simpl; lia | lia]. }
  rewrite int_floor.
  - rewrite (Qfloor_comp _ _ Heq). simpl. f_equal. lia.
  - rewrite Heq. unfold Qle. simpl. nia.
Qed.

Lemma step_index_lt (i n P : Z) :
  0 <= i < P -> 0 < n -> i * n / P < n.
Proof.
  intros Hi Hn. apply Z.div_lt_upper_bound; nia.
Qed.


(** ** [min], [max] and [sort] *)

Lemma Qltb_lt (x y : Q) : Py.Qltb x y = true <-> (x < y)%Q.
Proof.
  unfold Py.Qltb. rewrite negb_true_iff. split.
  - intros H. apply Qnot_le_lt. intros Hle. apply Qle_bool_iff in Hle.
    congruence.
  - intros H. destruct (Qle_bool y x) eqn:Hle; [|done].
    apply Qle_bool_iff in Hle. lra.
Qed.

Lemma Qltb_ge (x y : Q) : Py.Qltb x y = false <-> (y <= x)%Q.
Proof.
  unfold Py.Qltb. rewrite negb_false_iff. apply Qle_bool_iff.
Qed.

Lemma min_loop_spec (l : list Q) (x : Q) :
  let m := fold_left (fun best y => if Py.Qltb y best then y else best) l x in
  m ∈ x :: l /\ forall y, y ∈ x :: l -> (m <= y)%Q.
Proof.
  revert x. induction l as [|a l IH]; intros x; simpl.
  - split; [left|]. intros y Hy. apply list_elem_of_singleton in Hy as ->. lra.
  - destruct (Py.Qltb a x) eqn:Hax.
    + apply Qltb_lt in Hax. destruct (IH a) as [Hin Hle]. split.
      * right. exact Hin.
      * intros y Hy. apply elem_of_cons in Hy as [->|Hy].
        -- specialize (Hle a ltac:(left)). lra.
        -- by apply Hle.
    + apply Qltb_ge in Hax. destruct (IH x) as [Hin Hle]. split.
      * apply elem_of_cons in Hin as [->|Hin]; [left | right; by right].
      * intros y Hy. apply elem_of_cons in Hy as [->|Hy]; [apply Hle; left|].
        apply elem_of_cons in Hy as [->|Hy].
        -- specialize (Hle x ltac:(left)). lra.
        -- apply Hle. by right.
Qed.

Lemma max_loop_spec (l : list Q) (x : Q) :
  let m := fold_left (fun best y => if Py.Qltb best y then y else best) l x in
  m ∈ x :: l /\ forall y, y ∈ x :: l -> (y <= m)%Q.
Proof.
  revert x. induction l as [|a l IH]; intros x; simpl.
  - split; [left|]. intros y Hy. apply list_elem_of_singleton in Hy as ->. lra.
  - destruct (Py.Qltb x a) eqn:Hax.
    + apply Qltb_lt in Hax. destruct (IH a) as [Hin Hle]. split.
      * right. exact Hin.
      * intros y Hy. apply elem_of_cons in Hy as [->|Hy].
        -- specialize (Hle a ltac:(left)). lra.
        -- by apply Hle.
    + apply Qltb_ge in Hax. destruct (IH x) as [Hin Hle]. split.
      * apply elem_of_cons in Hin as [->|Hin]; [left | right; by right].
      * intros y Hy. apply elem_of_cons in Hy as [->|Hy]; [apply Hle; left|].
        apply elem_of_cons in Hy as [->|Hy].
        -- specialize (Hle x ltac:(left)). lra.
        -- apply Hle. by right.
Qed.

(** [m] is a smallest (largest) element of [l]. *)
Definition is_min (l : list Q) (m : Q) : Prop :=
  m ∈ l /\ forall y, y ∈ l -> (m <= y)%Q.

Definition is_max (l : list Q) (m : Q) : Prop :=
  m ∈ l /\ forall y, y ∈ l -> (y <= m)%Q.

Lemma min_Ok (l : list Q) :
  l <> [] -> exists m, Py.min l = Ok m /\ is_min l m.
Proof.
  destruct l as [|x l]; [done|]. intros _. eexists. split; [reflexivity|].
  apply min_loop_spec.
Qed.

Lemma max_Ok (l : list Q) :
  l <> [] -> exists m, Py.max l = Ok m /\ is_max l m.
Proof.
  destruct l as [|x l]; [done|]. intros _. eexists. split; [reflexivity|].
  apply max_loop_spec.
Qed.

Lemma is_min_unique (l : list Q) (m m' : Q) :
  is_min l m -> is_min l m' -> (m == m')%Q.
Proof.
  intros [Hin Hle] [Hin' Hle']. specialize (Hle _ Hin').
  specialize (Hle' _ Hin). lra.
Qed.


Lemma insert_perm (x : Q) (l : list Q) : Permutation (Py.insert x l) (x :: l).
Proof.
  induction l as [|y l IH]; simpl; [done|].
  destruct (Qle_bool x y); [done|].
  rewrite IH. apply perm_swap.
Qed.

Lemma sort_perm (l : list Q) : Permutation (Py.sort l) l.
Proof.
  induction l as [|x l IH]; simpl; [done|].
  rewrite insert_perm. by constructor.
Qed.

Lemma sort_length (l : list Q) : length (Py.sort l) = length l.
Proof. apply Permutation_length, sort_perm. Qed.



(** ** Fenceposts *)

(** Post [i] of the proportional mode. *)
Definition prop_post (self : Colorbin) (i : nat) : Q :=
  let P := inject_Z (Z.of_nat (length (colors_in self))) in
  let step_1 := ((bin_mid self - bin_min self) / P * 2)%Q in
  let step_2 := ((bin_max self - bin_mid self) / P * 2)%Q in
  if Py.Qltb (inject_Z (Z.of_nat i)) (P / inject_Z 2) then
    (bin_min self + inject_Z (Z.of_nat i) * step_1)%Q
  else if Qeq_bool (inject_Z (Z.of_nat i)) (P / inject_Z 2) then
    bin_mid self
  else
    (bin_max self
     - inject_Z (Z.of_nat (length (colors_in self)) - Z.of_nat i) * step_2)%Q.

(** The index into the sorted quantities of post [i] of the quantile mode. *)
Definition step_index (n P i : nat) : nat :=
  Z.to_nat (Z.of_nat i * Z.of_nat n / Z.of_nat P).

Definition quantile_posts (quant_sorted : list Q) (P : nat) : list Q :=
  map (fun i => nth (step_index (length quant_sorted) P i) quant_sorted 0%Q)
      (range 0 P)
  ++ [nth (length quant_sorted - 1) quant_sorted 0%Q].

(** The rounding that ends [_calc_fenceposts]. *)
Definition rounded (decimals : option Z) (posts : list Q) : list Q :=
  match decimals with
  | Some d => map (fun x => Py.round x d) posts
  | None => posts
  end.

Lemma calc_fenceposts_proportional (self : Colorbin) :
  proportional self = true -> colors_in self <> [] ->
  _calc_fenceposts self
  = Ok (with_fenceposts self
          (rounded (decimals self)
             (map (prop_post self) (range 0 (length (colors_in self) + 1))))).
Proof.
  intros Hprop Hpal. unfold _calc_fenceposts. rewrite Hprop.
  assert (HP : (Z.of_nat (length (colors_in self)) =? 0) = false).
  { apply Z.eqb_neq. destruct (colors_in self); [done | simpl; lia]. }
  unfold Py.truediv at 1 2. rewrite HP. cbn [bind].
  rewrite (for_in_append _ (prop_post self)); [by destruct (decimals self)|].
  intros i acc _. unfold prop_post, Py.truediv. simpl.
  destruct (Py.Qltb _ _); [done|]. by destruct (Qeq_bool _ _).
Qed.

Lemma calc_fenceposts_quantile (self : Colorbin) :
  proportional self = false -> colors_in self <> [] ->
  quantities self <> [] ->
  _calc_fenceposts self
  = Ok (with_fenceposts self
          (rounded (decimals self)
             (quantile_posts (Py.sort (quantities self))
                (length (colors_in self))))).
Proof.
  intros Hprop Hpal Hqs. unfold _calc_fenceposts. rewrite Hprop.
  set (P := length (colors_in self)).
  set (quant_sorted := Py.sort (quantities self)).
  assert (HP : (1 <= P)%nat).
  { subst P. destruct (colors_in self); [done | simpl; lia]. }
  assert (Hn : (1 <= length quant_sorted)%nat).
  { subst quant_sorted. rewrite sort_length.
    destruct (quantities self); [done | simpl; lia]. }
  unfold Py.truediv.
  destruct (Z.eqb_spec (Z.of_nat P) 0) as [?|_]; [lia|]. cbn [bind].
  rewrite (for_in_append _
    (fun i => nth (step_index (length quant_sorted) P i) quant_sorted 0%Q)).
  - cbn [bind].
    rewrite (getitem_last quant_sorted
               (nth (length quant_sorted - 1) quant_sorted 0%Q)).
    + by destruct (decimals self).
    + rewrite last_lookup.
      replace (pred (length quant_sorted)) with (length quant_sorted - 1)%nat
        by lia.
      destruct (nth_lookup_or_length quant_sorted (length quant_sorted - 1)
                  0%Q) as [H|H]; [done | lia].
  - intros i acc Hi. apply elem_of_range in Hi.
    rewrite int_step by lia.
    assert (Hlt : Z.of_nat i * Z.of_nat (length quant_sorted) / Z.of_nat P
                  < Z.of_nat (length quant_sorted))
      by (apply step_index_lt; lia).
    assert (Hge : 0 <= Z.of_nat i * Z.of_nat (length quant_sorted)
                       / Z.of_nat P)
      by (apply Z.div_pos; lia).
    rewrite <- (Z2Nat.id _ Hge).
    fold (step_index (length quant_sorted) P i).
    destruct (nth_lookup_or_length quant_sorted
                (step_index (length quant_sorted) P i) 0%Q) as [H|H].
    + by rewrite (getitem_nat _ _ _ H).
    + unfold step_index in H. lia.
Qed.

(** ** Sorted lists and the quantile posts *)











Lemma quantile_posts_length (quant_sorted : list Q) (P : nat) :
  length (quantile_posts quant_sorted P) = (P + 1)%nat.
Proof.
  unfold quantile_posts, range.
  rewrite length_app, length_map, length_seq. simpl. lia.
Qed.

(** ** What [recalc] computes *)

(** The posts of [_calc_fenceposts], before the rounding. *)
Definition posts_of (self : Colorbin) : list Q :=
  if proportional self
  then map (prop_post self) (range 0 (length (colors_in self) + 1))
  else quantile_posts (Py.sort (quantities self)) (length (colors_in self)).

(** The object [recalc()] returns for the object [self0]. *)
Record recalculated (self0 self : Colorbin) : Prop := mkRecalculated {
  rc_quantities : quantities self = quantities self0;
  rc_colors_in : colors_in self = colors_in self0;
  rc_proportional : proportional self = proportional self0;
  rc_decimals : decimals self = decimals self0;
  rc_bin_min : bin_min self = bin_min self0;
  rc_bin_max : bin_max self = bin_max self0;
  rc_bin_mid : bin_mid self = bin_mid self0;
  rc_complements : complements self = complements self0;
  rc_fenceposts :
    fenceposts self = rounded (decimals self0) (posts_of self0);
  rc_colors_out :
    colors_out self = map (color_of self) (quantities self0);
  rc_bin_counts :
    bin_counts self
    = map (fun b => count_bin (fenceposts self) (length (colors_in self0)) b
                      (quantities self0))
          (seq 0 (length (colors_in self0)))
}.

Lemma posts_of_length (self : Colorbin) :
  length (posts_of self) = (length (colors_in self) + 1)%nat.
Proof.
  unfold posts_of. destruct (proportional self).
  - unfold range. rewrite length_map, length_seq. lia.
  - apply quantile_posts_length.
Qed.

Lemma rounded_length (d : option Z) (posts : list Q) :
  length (rounded d posts) = length posts.
Proof. destruct d; simpl; [by rewrite length_map | done]. Qed.

Lemma calc_fenceposts_Ok (self : Colorbin) :
  colors_in self <> [] ->
  proportional self = true \/ quantities self <> [] ->
  _calc_fenceposts self
  = Ok (with_fenceposts self (rounded (decimals self) (posts_of self))).
Proof.
  intros Hpal Hmode. unfold posts_of.
  destruct (proportional self) eqn:Hp.
  - by apply calc_fenceposts_proportional.
  - destruct Hmode as [?|Hqs]; [done|]. by apply calc_fenceposts_quantile.
Qed.

Lemma recalc_Ok (float_str : Q -> string) (self0 : Colorbin) :
  colors_in self0 <> [] ->
  proportional self0 = true \/ quantities self0 <> [] ->
  exists self,
    recalc float_str self0 true = Ok self /\ recalculated self0 self.
Proof.
  intros Hpal Hmode.
  assert (HP : (1 <= length (colors_in self0))%nat).
  { destruct (colors_in self0); [done | simpl; lia]. }
  unfold recalc. rewrite calc_fenceposts_Ok by done. cbn [bind].
  set (posts := rounded (decimals self0) (posts_of self0)).
  assert (Hlen : length posts = (length (colors_in self0) + 1)%nat).
  { subst posts. by rewrite rounded_length, posts_of_length. }
  destruct (calc_labels_Ok float_str (with_fenceposts self0 posts))
    as (ls & fls & Hlabels); [simpl; lia|].
  rewrite Hlabels. cbn [bind].
  rewrite calc_colors_Ok by (simpl; lia).
  eexists. split; [reflexivity|].
  constructor; simpl; done.
Qed.

Lemma rc_fenceposts_length (self0 self : Colorbin) :
  recalculated self0 self ->
  length (fenceposts self) = (length (colors_in self0) + 1)%nat.
Proof.
  intros H. by rewrite (rc_fenceposts _ _ H), rounded_length, posts_of_length.
Qed.

Lemma rc_color_lookup (self0 self : Colorbin) (k : nat) (q : Q) :
  colors_in self0 <> [] -> recalculated self0 self ->
  quantities self0 !! k = Some q ->
  exists c,
    colors_out self !! k = Some c
    /\ colors_in self0
       !! bin_of (fenceposts self) (length (colors_in self0)) q = Some c.
Proof.
  intros Hpal Hrc Hq. exists (color_of self q). split.
  - rewrite (rc_colors_out _ _ Hrc), list_lookup_fmap, Hq. done.
  - unfold color_of. rewrite (rc_colors_in _ _ Hrc).
    assert (HP : (1 <= length (colors_in self0))%nat).
    { destruct (colors_in self0); [done | simpl; lia]. }
    pose proof (bin_of_lt (fenceposts self) (length (colors_in self0)) q HP).
    destruct (nth_lookup_or_length (colors_in self0)
                (bin_of (fenceposts self) (length (colors_in self0)) q)
                EmptyString) as [H'|H']; [done | lia].
Qed.

(** ** Fenceposts: how many, and what they span *)



(** ** Construction *)

Lemma nan_filter_unbound (x : pyfloat) (inputs kept : list pyfloat) :
  for_in (x :: inputs) (fun x kept =>
    let* nan := np_isnan Unbound x in
    if negb nan then Ok (kept ++ [x]) else Ok kept) kept
  = Raise NameError.
Proof. reflexivity. Qed.

Lemma nan_filter_numpy (inputs kept : list pyfloat) :
  for_in inputs (fun x kept =>
    let* nan := np_isnan Numpy x in
    if negb nan then Ok (kept ++ [x]) else Ok kept) kept
  = Ok (kept ++ List.filter (fun x => negb (isnan x)) inputs).
Proof.
  revert kept. induction inputs as [|x inputs IH]; intros kept; simpl.
  - by rewrite app_nil_r.
  - destruct (isnan x); simpl; rewrite IH; [done|].
    by rewrite <- app_assoc.
Qed.

Lemma drop_nan_filter (inputs : list pyfloat) :
  drop_nan (List.filter (fun x => negb (isnan x)) inputs) = drop_nan inputs.
Proof.
  induction inputs as [|[|q] inputs IH]; simpl; [done | done | by f_equal].
Qed.

(** The constructor once [np] is bound to numpy: the object is what
    [recalc()] makes of the attributes assigned before it. *)
Lemma init_numpy_Ok (float_str : Q -> string) (inputs : list pyfloat)
    (palette : list string) (mode : bool) (dec : option Z) :
  drop_nan inputs <> [] -> palette <> [] ->
  exists self0 self,
    __init__ float_str Numpy inputs palette mode dec
    = Ok (with_complements self None)
    /\ quantities self0 = drop_nan inputs
    /\ colors_in self0 = palette
    /\ proportional self0 = mode
    /\ decimals self0 = None
    /\ is_min (drop_nan inputs) (bin_min self0)
    /\ is_max (drop_nan inputs) (bin_max self0)
    /\ recalc float_str self0 true = Ok self
    /\ recalculated self0 self.
Proof.
  intros Hqs Hpal. unfold __init__. rewrite nan_filter_numpy.
  cbn [bind app]. rewrite drop_nan_filter.
  destruct (min_Ok _ Hqs) as (lo & Hlo & Hmin).
  destruct (max_Ok _ Hqs) as (hi & Hhi & Hmax).
  rewrite Hlo, Hhi. cbn [bind]. unfold Py.truediv at 1. cbn [Z.eqb bind].
  set (self0 := mkColorbin _ _ _ _ _ _ _ _ _ _ _ _ _).
  destruct (recalc_Ok float_str self0 Hpal (or_intror Hqs))
    as (self & Hrun & Hrc).
  rewrite Hrun. cbn [bind]. by exists self0, self.
Qed.





(** C6.  As the module is shipped, [np] is unbound and the NaN filter of
    [__init__] raises [NameError] at the first quantity: construction fails
    on every list that is not empty, with or without NaN in it.  Only the
    empty list passes the filter, and then [min] raises [ValueError]. *)
Theorem construction_raises_name_error (float_str : Q -> string) :
  (forall x inputs palette mode dec,
     __init__ float_str Unbound (x :: inputs) palette mode dec
     = Raise NameError)
  /\ (forall np palette mode dec,
        __init__ float_str np [] palette mode dec = Raise ValueError).
Proof. split; reflexivity. Qed.

Definition posts_equal (l l' : list Q) : Prop := Forall2 Qeq l l'.

(** C5.  [__init__] never reads its [decimals] argument (it assigns [None]
    to the attribute), so the argument cannot change what a call returns or
    raises.  As shipped the call of the claim raises [NameError].  With [np]
    bound to numpy it returns an object whose [decimals] is [None] and whose
    fenceposts are not rounded: built from [2.71828] and [3.14159] with
    [decimals=2], the posts are [2.71828] and [3.14159]; they become [2.72]
    and [3.14] only after [set_decimals(2)] and [recalc()]. *)
Theorem init_discards_decimals (float_str : Q -> string) :
  (forall np inputs palette mode dec,
     __init__ float_str np inputs palette mode dec
     = __init__ float_str np inputs palette mode None)
  /\ __init__ float_str Unbound
       [Real (271828 # 100000); Real (314159 # 100000)]
       ["#000000"%string] true (Some 2)
     = Raise NameError
  /\ exists self self',
       __init__ float_str Numpy
         [Real (271828 # 100000); Real (314159 # 100000)]
         ["#000000"%string] true (Some 2) = Ok self
       /\ decimals self = None
       /\ posts_equal (fenceposts self)
            [271828 # 100000; 314159 # 100000]%Q
       /\ ~ posts_equal (fenceposts self) [272 # 100; 314 # 100]%Q
       /\ recalc float_str (set_decimals self (Some 2)) true = Ok self'
       /\ posts_equal (fenceposts self') [272 # 100; 314 # 100]%Q.
Proof.
  split; [reflexivity|]. split; [reflexivity|].
  eexists _, _. split; [vm_compute; reflexivity|]. split; [reflexivity|].
  split; [|split; [|split; [vm_compute; reflexivity|]]].
  - by repeat constructor.
  - intros H. inversion H as [|? ? ? ? Hhd _]; subst. discriminate Hhd.
  - by repeat constructor.
Qed.

(** ** Colours and counts *)

Definition sum_counts (l : list Z) : Z := foldr Z.add 0 l.

Lemma sum_counts_add {A : Type} (f g : A -> Z) (l : list A) :
  sum_counts (map (fun b => f b + g b) l)
  = sum_counts (map f l) + sum_counts (map g l).
Proof. induction l as [|a l IH]; simpl; lia. Qed.

Lemma sum_counts_indicator (b0 a n : nat) :
  sum_counts (map (fun b => if Nat.eqb b0 b then 1 else 0) (seq a n))
  = if decide (a <= b0 < a + n)%nat then 1 else 0.
Proof.
  revert a. induction n as [|n IH]; intros a; simpl.
  - case_decide; [lia | done].
  - rewrite IH. destruct (Nat.eqb_spec b0 a); repeat case_decide; lia.
Qed.

Lemma sum_count_bin (posts : list Q) (P : nat) (qs : list Q) :
  (1 <= P)%nat ->
  sum_counts (map (fun b => count_bin posts P b qs) (seq 0 P))
  = Z.of_nat (length qs).
Proof.
  intros HP. induction qs as [|q qs IH].
  - simpl. induction (seq 0 P) as [|a l IHl]; simpl; lia.
  - cbn [count_bin].
    rewrite (sum_counts_add
               (fun b => if Nat.eqb (bin_of posts P q) b then 1 else 0)).
    rewrite IH, sum_counts_indicator.
    pose proof (bin_of_lt posts P q HP).
    case_decide; [simpl length; lia | lia].
Qed.

Lemma color_lookup (self : Colorbin) (q : Q) :
  colors_in self <> [] ->
  colors_in self !! bin_of (fenceposts self) (length (colors_in self)) q
  = Some (color_of self q).
Proof.
  intros Hpal. unfold color_of.
  assert (HP : (1 <= length (colors_in self))%nat).
  { destruct (colors_in self); [done | simpl; lia]. }
  pose proof (bin_of_lt (fenceposts self) (length (colors_in self)) q HP).
  destruct (nth_lookup_or_length (colors_in self)
              (bin_of (fenceposts self) (length (colors_in self)) q)
              EmptyString) as [H'|H']; [done | lia].
Qed.

(** C3.  For a palette that is not empty, [_calc_colors] gives [colors_out]
    one entry for each quantity the object holds, in their order: entry [k]
    is the palette colour of the bin of quantity [k]; every entry is a
    colour of the palette, and [bin_counts] sums to the number of
    quantities.  With [np] bound to numpy, the quantities a new object holds
    are the inputs that are not NaN, in the input order, and the same holds
    of the new object. *)
Theorem colors_out_aligned_with_quantities (float_str : Q -> string)
    (palette : list string) :
  let P := length palette in
  palette <> [] ->
  (forall self,
     colors_in self = palette -> (P <= length (fenceposts self))%nat ->
     exists self',
       _calc_colors self = Ok self'
       /\ quantities self' = quantities self
       /\ colors_in self' = palette
       /\ length (colors_out self') = length (quantities self)
       /\ (forall k q, quantities self !! k = Some q ->
             exists c,
               colors_out self' !! k = Some c
               /\ palette !! bin_of (fenceposts self) P q = Some c)
       /\ Forall (fun c => c ∈ palette) (colors_out self')
       /\ sum_counts (bin_counts self')
          = Z.of_nat (length (quantities self)))
  /\ (forall inputs mode dec,
        drop_nan inputs <> [] ->
        exists self,
          __init__ float_str Numpy inputs palette mode dec = Ok self
          /\ quantities self = drop_nan inputs
          /\ colors_in self = palette
          /\ length (colors_out self) = length (drop_nan inputs)
          /\ (forall k q, drop_nan inputs !! k = Some q ->
                exists c,
                  colors_out self !! k = Some c
                  /\ palette !! bin_of (fenceposts self) P q = Some c)
          /\ Forall (fun c => c ∈ palette) (colors_out self)
          /\ sum_counts (bin_counts self)
             = Z.of_nat (length (drop_nan inputs))).
Proof.
  intros P Hpal.
  assert (HP : (1 <= P)%nat).
  { subst P. destruct palette; [done | simpl; lia]. }
  split.
  - intros self Hin Hposts.
    assert (Hpal' : colors_in self <> []) by (by rewrite Hin).
    eexists. split; [apply calc_colors_Ok; by rewrite Hin|].
    cbn [quantities colors_in colors_out bin_counts with_colors].
    split; [done|]. split; [done|]. split; [by rewrite length_map|].
    split; [|split].
    + intros k q Hk. exists (color_of self q).
      split; [by rewrite list_lookup_fmap, Hk|].
      subst P. rewrite <- Hin. by apply color_lookup.
    + apply Forall_forall. intros c Hc.
      apply list_elem_of_fmap in Hc as (q & -> & _). rewrite <- Hin.
      eapply list_elem_of_lookup_2. by apply color_lookup.
    + rewrite Hin. by apply sum_count_bin.
  - intros inputs mode dec Hqs.
    destruct (init_numpy_Ok float_str inputs palette mode dec Hqs Hpal)
      as (self0 & self & Hinit & Hq0 & Hc0 & _ & _ & _ & _ & _ & Hrc).
    assert (Hpal0 : colors_in self0 <> []) by (by rewrite Hc0).
    eexists. split; [exact Hinit|].
    cbn [quantities colors_in fenceposts colors_out bin_counts
         with_complements].
    split; [by rewrite (rc_quantities _ _ Hrc)|].
    split; [by rewrite (rc_colors_in _ _ Hrc)|].
    split; [by rewrite (rc_colors_out _ _ Hrc), length_map, Hq0|].
    split; [|split].
    + intros k q Hk. rewrite <- Hq0 in Hk.
      destruct (rc_color_lookup self0 self k q Hpal0 Hrc Hk)
        as (c & Hc & Hp).
      exists c. split; [done|]. subst P. by rewrite <- Hc0.
    + apply Forall_lookup. intros k c Hc.
      assert (Hlt : (k < length (quantities self0))%nat).
      { apply lookup_lt_Some in Hc.
        by rewrite (rc_colors_out _ _ Hrc), length_map in Hc. }
      destruct (lookup_lt_is_Some_2 _ _ Hlt) as [q Hq].
      destruct (rc_color_lookup self0 self k q Hpal0 Hrc Hq)
        as (c' & Hc' & Hp).
      assert (c' = c) as -> by congruence.
      rewrite <- Hc0. by eapply list_elem_of_lookup_2.
    + rewrite (rc_bin_counts _ _ Hrc), <- Hq0. apply sum_count_bin.
      by rewrite Hc0.
Qed.

Lemma colors_out_aligned_with_quantities_witness :
  let palette := ["#111111"; "#777777"; "#eeeeee"]%string in
  let inputs := [Real 4; NaN; Real 1; Real (7 # 2); NaN; Real 9] in
  let P := length palette in
  palette <> []
  /\ (exists self',
        _calc_colors
          (mkColorbin [4; 1; 7 # 2; 9]%Q palette true 1 9 5 None
             [1; 11 # 3; 19 # 3; 9]%Q [] [] [] [] None) = Ok self'
        /\ colors_out self'
           = ["#777777"; "#111111"; "#111111"; "#eeeeee"]%string)
  /\ exists self,
       __init__ (fun _ => EmptyString) Numpy inputs palette true None
       = Ok self
       /\ quantities self = drop_nan inputs
       /\ colors_in self = palette
       /\ length (colors_out self) = length (drop_nan inputs)
       /\ (forall k q, drop_nan inputs !! k = Some q ->
             exists c,
               colors_out self !! k = Some c
               /\ palette !! bin_of (fenceposts self) P q = Some c)
       /\ Forall (fun c => c ∈ palette) (colors_out self)
       /\ sum_counts (bin_counts self)
          = Z.of_nat (length (drop_nan inputs)).
Proof.
  split; [discriminate|]. split.
  - eexists. split; [vm_compute; reflexivity | reflexivity].
  - apply (colors_out_aligned_with_quantities (fun _ => EmptyString)
             ["#111111"; "#777777"; "#eeeeee"]%string);
      discriminate.
Defined.

(** C1.  For a palette of [P >= 1] colours, [_calc_colors] assigns every
    quantity of the object the bin whose index is the largest [i] of
    [1 .. P-1] with [quantity >= fenceposts[i]], or [0] when there is none,
    and makes its entry of [colors_out] the palette colour of that index.
    With [np] bound to numpy the same holds of a new object and the inputs
    that are not NaN.  A quantity equal to a fencepost is in the upper bin:
    with fenceposts [[0, 5, 10]] the quantity [5] is in bin [1]. *)
Theorem bin_is_last_fencepost_reached (float_str : Q -> string)
    (palette : list string) :
  let P := length palette in
  palette <> [] ->
  (forall self,
     colors_in self = palette -> (P <= length (fenceposts self))%nat ->
     exists self',
       _calc_colors self = Ok self'
       /\ quantities self' = quantities self
       /\ colors_in self' = palette
       /\ fenceposts self' = fenceposts self
       /\ length (colors_out self') = length (quantities self)
       /\ forall k q, quantities self !! k = Some q ->
            exists b c,
              find_bin self q = Ok b
              /\ is_bin_index (fenceposts self) P q b
              /\ (forall b', is_bin_index (fenceposts self) P q b'
                    -> b' = b)
              /\ palette !! b = Some c
              /\ colors_out self' !! k = Some c)
  /\ (forall inputs mode dec,
        drop_nan inputs <> [] ->
        exists self,
          __init__ float_str Numpy inputs palette mode dec = Ok self
          /\ quantities self = drop_nan inputs
          /\ colors_in self = palette
          /\ length (fenceposts self) = (P + 1)%nat
          /\ forall k q, drop_nan inputs !! k = Some q ->
               exists b c,
                 find_bin self q = Ok b
                 /\ is_bin_index (fenceposts self) P q b
                 /\ (forall b', is_bin_index (fenceposts self) P q b'
                       -> b' = b)
                 /\ palette !! b = Some c
                 /\ colors_out self !! k = Some c)
  /\ (forall other, fenceposts other = [0; 5; 10]%Q ->
        length (colors_in other) = 2%nat ->
        find_bin other 5%Q = Ok 1%nat
        /\ is_bin_index (fenceposts other) 2 5%Q 1).
Proof.
  intros P Hpal.
  assert (HP : (1 <= P)%nat).
  { subst P. destruct palette; [done | simpl; lia]. }
  split; [|split].
  - intros self Hin Hposts.
    assert (Hpal' : colors_in self <> []) by (by rewrite Hin).
    eexists. split; [apply calc_colors_Ok; by rewrite Hin|].
    cbn [quantities colors_in fenceposts colors_out with_colors].
    split; [done|]. split; [done|]. split; [done|].
    split; [by rewrite length_map|].
    intros k q Hk.
    exists (bin_of (fenceposts self) P q), (color_of self q).
    split; [subst P; rewrite <- Hin; apply find_bin_Ok; by rewrite Hin|].
    split; [apply bin_of_is_bin_index|]. split.
    + intros b' Hb'. eapply is_bin_index_unique; [exact Hb'|].
      apply bin_of_is_bin_index.
    + split; [|by rewrite list_lookup_fmap, Hk].
      subst P. rewrite <- Hin. by apply color_lookup.
  - intros inputs mode dec Hqs.
    destruct (init_numpy_Ok float_str inputs palette mode dec Hqs Hpal)
      as (self0 & self & Hinit & Hq0 & Hc0 & _ & _ & _ & _ & _ & Hrc).
    assert (Hpal0 : colors_in self0 <> []) by (by rewrite Hc0).
    pose proof (rc_fenceposts_length _ _ Hrc) as Hlen.
    rewrite Hc0 in Hlen. fold P in Hlen.
    eexists. split; [exact Hinit|].
    split; [cbn; by rewrite (rc_quantities _ _ Hrc)|].
    split; [cbn; by rewrite (rc_colors_in _ _ Hrc)|].
    split; [done|].
    intros k q Hk. rewrite <- Hq0 in Hk.
    destruct (rc_color_lookup self0 self k q Hpal0 Hrc Hk) as (c & Hc & Hp).
    rewrite Hc0 in Hp. fold P in Hp.
    exists (bin_of (fenceposts self) P q), c.
    split.
    { rewrite find_bin_Ok;
        cbn [colors_in fenceposts with_complements];
        rewrite (rc_colors_in _ _ Hrc), Hc0; fold P; [done | lia]. }
    cbn [fenceposts colors_out with_complements].
    split; [apply bin_of_is_bin_index|]. split; [|done].
    intros b' Hb'. eapply is_bin_index_unique; [exact Hb'|].
    apply bin_of_is_bin_index.
  - intros other Hother Hlen. split.
    + rewrite find_bin_Ok; rewrite Hother, Hlen; [done | simpl; lia].
    + rewrite Hother. apply (bin_of_is_bin_index [0; 5; 10]%Q 2 5%Q).
Qed.

Lemma bin_is_last_fencepost_reached_witness :
  let palette := ["#000000"; "#ffffff"]%string in
  let P := length palette in
  palette <> []
  /\ (forall self,
        colors_in self = palette -> (P <= length (fenceposts self))%nat ->
        exists self',
          _calc_colors self = Ok self'
          /\ quantities self' = quantities self
          /\ colors_in self' = palette
          /\ fenceposts self' = fenceposts self
          /\ length (colors_out self') = length (quantities self)
          /\ forall k q, quantities self !! k = Some q ->
               exists b c,
                 find_bin self q = Ok b
                 /\ is_bin_index (fenceposts self) P q b
                 /\ (forall b', is_bin_index (fenceposts self) P q b'
                       -> b' = b)
                 /\ palette !! b = Some c
                 /\ colors_out self' !! k = Some c)
  /\ exists self',
       _calc_colors
         (mkColorbin [0; 5; 10]%Q palette true 0 10 5 None [0; 5; 10]%Q
            [] [] [] [] None) = Ok self'
       /\ colors_out self' = ["#000000"; "#ffffff"; "#ffffff"]%string
       /\ bin_counts self' = [1; 2].
Proof.
  split; [discriminate|]. split.
  - apply (bin_is_last_fencepost_reached (fun _ => EmptyString)
             ["#000000"; "#ffffff"]%string).
    discriminate.
  - eexists. split; [vm_compute; reflexivity|]. split; reflexivity.
Defined.

(** ** The quantile posts in binary64 *)












(** ** Complementary colours *)

Lemma hex_value_facts (c : ascii) (v : Z) :
  Py.hex_value c = Some v ->
  Py.is_space c = false /\ Py.is_underscore c = false
  /\ (Py.code c =? 43) = false /\ (Py.code c =? 45) = false
  /\ (Py.code c =? 120) = false /\ (Py.code c =? 88) = false
  /\ 0 <= v < 16.
Proof.
  unfold Py.hex_value, Py.is_space, Py.is_underscore.
  set (n := Py.code c). intros H.
  assert (Hn : (48 <= n <= 57 \/ 97 <= n <= 102 \/ 65 <= n <= 70)
               /\ 0 <= v < 16).
  { destruct (Z.leb_spec 48 n), (Z.leb_spec n 57); simpl in H;
      try (injection H as <-; lia);
      destruct (Z.leb_spec 97 n), (Z.leb_spec n 102); simpl in H;
      try (injection H as <-; lia);
      destruct (Z.leb_spec 65 n), (Z.leb_spec n 70); simpl in H;
      try (injection H as <-; lia); discriminate. }
  destruct Hn as [Hn Hv].
  repeat split; try lia;
    rewrite ?orb_false_iff, ?andb_false_iff, ?Z.leb_gt, ?Z.eqb_neq; lia.
Qed.

(** Two hexadecimal digits are read as [16 * first + second]. *)
Lemma int16_two_digits (a b : ascii) (va vb : Z) :
  Py.hex_value a = Some va -> Py.hex_value b = Some vb ->
  Py.int16 (String a (String b EmptyString)) = Ok (16 * va + vb).
Proof.
  intros Ha Hb.
  destruct (hex_value_facts a va Ha) as (Has & Hau & Hap & Ham & Hax & HaX & _).
  destruct (hex_value_facts b vb Hb) as (Hbs & Hbu & Hbp & Hbm & Hbx & HbX & _).
  unfold Py.int16, Py.strip. simpl.
  rewrite Has. simpl. rewrite Hbs. simpl. rewrite Hap, Ham.
  unfold Py.unsigned16, Py.skip_prefix16. rewrite Hbx, HbX.
  rewrite andb_false_r. rewrite Hau. simpl. rewrite Hau, Ha, Hbu, Hb.
  f_equal; lia.
Qed.

(** A colour [#RRGGBB]: [#] and six hexadecimal digits, nothing else. *)
Definition is_hex_digit (c : ascii) : bool :=
  match Py.hex_value c with
  | Some _ => true
  | None => false
  end.

Definition is_hex_color (color : string) : bool :=
  match list_ascii_of_string color with
  | [h; r1; r2; g1; g2; b1; b2] =>
      (Py.code h =? 35) && forallb is_hex_digit [r1; r2; g1; g2; b1; b2]
  | _ => false
  end.

(** The spec's luminance of a colour: the channels are the three pairs of
    hexadecimal digits after the first character. *)
Definition digit (c : ascii) : Z := default 0 (Py.hex_value c).

Definition channel (d1 d2 : ascii) : Z := 16 * digit d1 + digit d2.

(** The spec's luminance of a colour, in binary64: the channels are the
    three pairs of hexadecimal digits after the first character. *)
Definition luminance (color : string) : float :=
  match list_ascii_of_string color with
  | _ :: r1 :: r2 :: g1 :: g2 :: b1 :: b2 :: _ =>
      ((0.299 * Py.float_of_int (channel r1 r2)
        + 0.587 * Py.float_of_int (channel g1 g2)
        + 0.114 * Py.float_of_int (channel b1 b2))
       / Py.float_of_int 256)%float
  | _ => 0%float
  end.

Lemma grey_of_hex_digits (h r1 r2 g1 g2 b1 b2 : ascii) (rest : string) :
  forallb is_hex_digit [r1; r2; g1; g2; b1; b2] = true ->
  let color :=
    String h (String r1 (String r2 (String g1 (String g2 (String b1
      (String b2 rest)))))) in
  grey_of color = Ok (luminance color).
Proof.
  cbn [forallb]. unfold is_hex_digit. rewrite !andb_true_iff.
  intros (H1 & H2 & H3 & H4 & H5 & H6 & _).
  destruct (Py.hex_value r1) as [v1|] eqn:E1; [|done].
  destruct (Py.hex_value r2) as [v2|] eqn:E2; [|done].
  destruct (Py.hex_value g1) as [v3|] eqn:E3; [|done].
  destruct (Py.hex_value g2) as [v4|] eqn:E4; [|done].
  destruct (Py.hex_value b1) as [v5|] eqn:E5; [|done].
  destruct (Py.hex_value b2) as [v6|] eqn:E6; [|done].
  cbv zeta. unfold grey_of, Py.slice. cbn [Py.str_drop Py.str_take Nat.sub].
  rewrite (int16_two_digits r1 r2 v1 v2 E1 E2). cbn [bind].
  rewrite (int16_two_digits g1 g2 v3 v4 E3 E4). cbn [bind].
  rewrite (int16_two_digits b1 b2 v5 v6 E5 E6). cbn [bind].
  unfold luminance, channel, digit. cbn [list_ascii_of_string].
  by rewrite E1, E2, E3, E4, E5, E6.
Qed.

Lemma grey_of_hex_color (color : string) :
  is_hex_color color = true -> grey_of color = Ok (luminance color).
Proof.
  unfold is_hex_color.
  destruct color as [|h [|r1 [|r2 [|g1 [|g2 [|b1 [|b2 [|x rest]]]]]]]];
    cbn [list_ascii_of_string]; try discriminate.
  intros H. apply andb_true_iff in H as [_ H].
  by apply grey_of_hex_digits.
Qed.

Lemma int16_cases (s : string) :
  (exists v, Py.int16 s = Ok v) \/ Py.int16 s = Raise ValueError.
Proof.
  unfold Py.int16.
  destruct (match Py.strip (list_ascii_of_string s) with
            | [] => None
            | c :: cs' => _
            end) as [v|]; [left; by exists v | by right].
Qed.

(** A colour whose three channel substrings [int(_, 16)] accepts. *)
Definition readable (s : string) : Prop := exists v, Py.int16 s = Ok v.

Definition channels_readable (color : string) : Prop :=
  let hex := Py.str_drop 1 color in
  readable (Py.slice hex 0 2) /\ readable (Py.slice hex 2 4)
  /\ readable (Py.slice hex 4 6).

Lemma grey_of_Ok_iff (color : string) :
  (exists grey, grey_of color = Ok grey) <-> channels_readable color.
Proof.
  unfold grey_of, channels_readable, readable. split.
  - intros (grey & H).
    destruct (Py.int16 (Py.slice _ 0 2)) as [r|]; [|done]. cbn [bind] in H.
    destruct (Py.int16 (Py.slice _ 2 4)) as [g|]; [|done]. cbn [bind] in H.
    destruct (Py.int16 (Py.slice _ 4 6)) as [b|]; [|done].
    split; [by exists r | split; [by exists g | by exists b]].
  - intros ((r & ->) & (g & ->) & (b & ->)). cbn [bind]. by eexists.
Qed.

Lemma grey_of_Raise_iff (color : string) (e : exn) :
  grey_of color = Raise e <-> e = ValueError /\ ~ channels_readable color.
Proof.
  rewrite <- grey_of_Ok_iff. unfold grey_of. split.
  - intros H.
    assert (He : e = ValueError).
    { destruct (int16_cases (Py.slice (Py.str_drop 1 color) 0 2))
        as [[r Hr]|Hr]; rewrite Hr in H; cbn [bind] in H; [|congruence].
      destruct (int16_cases (Py.slice (Py.str_drop 1 color) 2 4))
        as [[g Hg]|Hg]; rewrite Hg in H; cbn [bind] in H; [|congruence].
      destruct (int16_cases (Py.slice (Py.str_drop 1 color) 4 6))
        as [[b Hb]|Hb]; rewrite Hb in H; cbn [bind] in H; [|congruence].
      discriminate H. }
    split; [done|]. intros (grey & Hg). congruence.
  - intros [-> Hn].
    destruct (int16_cases (Py.slice (Py.str_drop 1 color) 0 2))
      as [[r Hr]|Hr]; rewrite Hr; cbn [bind]; [|done].
    destruct (int16_cases (Py.slice (Py.str_drop 1 color) 2 4))
      as [[g Hg]|Hg]; rewrite Hg; cbn [bind]; [|done].
    destruct (int16_cases (Py.slice (Py.str_drop 1 color) 4 6))
      as [[b Hb]|Hb]; rewrite Hb; cbn [bind]; [|done].
    exfalso. apply Hn. rewrite Hr, Hg, Hb. cbn [bind]. by eexists.
Qed.

(** The complement of a colour whose grey level is known. *)
Definition complement_of (cutoff : float) (color_below color_above : string)
    (color : string) : string :=
  match grey_of color with
  | Ok grey => if (grey <? cutoff)%float then color_below else color_above
  | Raise _ => EmptyString
  end.

Definition complements_body (cutoff : float)
    (color_below color_above : string)
    (color : string) (complements : list string) : result (list string) :=
  let* grey := grey_of color in
  if (grey <? cutoff)%float then Ok (complements ++ [color_below])
  else Ok (complements ++ [color_above]).

Lemma complements_loop_Ok (cutoff : float) (below above : string)
    (colors acc : list string) :
  Forall channels_readable colors ->
  for_in colors (complements_body cutoff below above) acc
  = Ok (acc ++ map (complement_of cutoff below above) colors).
Proof.
  intros Hall. apply for_in_append. intros color acc' Hin.
  rewrite Forall_forall in Hall. specialize (Hall _ Hin).
  apply grey_of_Ok_iff in Hall as (grey & Hgrey).
  unfold complements_body, complement_of. rewrite Hgrey. cbn [bind].
  by destruct (grey <? cutoff)%float.
Qed.

Lemma complements_loop_Raise (cutoff : float) (below above : string)
    (colors acc : list string) (e : exn) :
  for_in colors (complements_body cutoff below above) acc = Raise e
  <-> e = ValueError /\ Exists (fun c => ~ channels_readable c) colors.
Proof.
  revert acc. induction colors as [|color colors IH]; intros acc;
    cbn [for_in].
  - split; [done|]. intros [_ H]. by apply Exists_nil in H.
  - unfold complements_body at 1.
    destruct (grey_of color) as [grey|e'] eqn:Hgrey; cbn [bind].
    + assert (Hr : channels_readable color)
        by (apply grey_of_Ok_iff; by exists grey).
      destruct (grey <? cutoff)%float; cbn [bind]; rewrite IH;
        rewrite Exists_cons; tauto.
    + apply grey_of_Raise_iff in Hgrey as [-> Hn]. rewrite Exists_cons.
      split; [intros [= <-]; tauto | by intros [-> _]].
Qed.

Lemma calc_complements_unfold (self : Colorbin) (cutoff : float)
    (below above : string) :
  calc_complements self cutoff below above
  = let* complements :=
      for_in (colors_out self) (complements_body cutoff below above) [] in
    Ok (with_complements self (Some complements)).
Proof. reflexivity. Qed.

Lemma hex_color_readable (color : string) :
  is_hex_color color = true -> channels_readable color.
Proof.
  intros H. apply grey_of_Ok_iff. eexists. by apply grey_of_hex_color.
Qed.

Lemma complement_of_hex (cutoff : float) (below above color : string) :
  is_hex_color color = true ->
  complement_of cutoff below above color
  = if (luminance color <? cutoff)%float then below else above.
Proof.
  intros H. unfold complement_of. by rewrite (grey_of_hex_color _ H).
Qed.

Lemma calc_complements_Ok (self : Colorbin) (cutoff : float)
    (below above : string) :
  Forall channels_readable (colors_out self) ->
  calc_complements self cutoff below above
  = Ok (with_complements self
          (Some (map (complement_of cutoff below above) (colors_out self)))).
Proof.
  intros H. rewrite calc_complements_unfold.
  by rewrite complements_loop_Ok.
Qed.

(** C7.  On an object whose [colors_out] was filled by [_calc_colors] from a
    palette of [#RRGGBB] colours, [calc_complements] returns one complement
    for each entry of [colors_out], as many as there are quantities and not
    as many as the palette has colours: [color_below] when the luminance
    [(0.299*R + 0.587*G + 0.114*B) / 256] of the entry, computed in binary64
    with each channel read from two hexadecimal digits, is below the cutoff,
    and [color_above] otherwise.  With cutoff [0.5], below [#ffffff] and
    above [#000000], the colour [#000000] gets [#ffffff] and [#ffffff] gets
    [#000000]; the luminance of [#808080] is [0.49999999999999994], below
    that cutoff. *)
Theorem complements_follow_luminance (self0 : Colorbin) (cutoff : float)
    (color_below color_above : string) :
  colors_in self0 <> [] ->
  (length (colors_in self0) <= length (fenceposts self0))%nat ->
  Forall (fun c => is_hex_color c = true) (colors_in self0) ->
  (exists self comps,
     _calc_colors self0 = Ok self
     /\ calc_complements self cutoff color_below color_above
        = Ok (with_complements self (Some comps))
     /\ length comps = length (colors_out self)
     /\ length comps = length (quantities self0)
     /\ forall k color, colors_out self !! k = Some color ->
          exists r1 r2 g1 g2 b1 b2,
            color = String "#" (String r1 (String r2 (String g1 (String g2
                      (String b1 (String b2 EmptyString))))))
            /\ luminance color
               = ((0.299 * Py.float_of_int (channel r1 r2)
                   + 0.587 * Py.float_of_int (channel g1 g2)
                   + 0.114 * Py.float_of_int (channel b1 b2))
                  / Py.float_of_int 256)%float
            /\ comps !! k
               = Some (if (luminance color <? cutoff)%float
                       then color_below else color_above))
  /\ (forall self, colors_out self = ["#000000"; "#ffffff"]%string ->
        exists self',
          calc_complements self 0.5 "#ffffff" "#000000" = Ok self'
          /\ complements self' = Some ["#ffffff"; "#000000"]%string)
  /\ (luminance "#808080" = 0.49999999999999994%float
      /\ forall self, colors_out self = ["#808080"%string] ->
           exists self',
             calc_complements self 0.5 "#ffffff" "#000000" = Ok self'
             /\ complements self' = Some ["#ffffff"%string]).
Proof.
  intros Hpal Hposts Hhex.
  assert (HP : (1 <= length (colors_in self0))%nat).
  { destruct (colors_in self0); [done | simpl; lia]. }
  split; [|split; [|split]].
  - set (self := with_colors self0 (map (color_of self0) (quantities self0))
                   (map (fun b => count_bin (fenceposts self0)
                                    (length (colors_in self0)) b
                                    (quantities self0))
                        (seq 0 (length (colors_in self0))))).
    assert (Hout : Forall (fun c => is_hex_color c = true) (colors_out self)).
    { subst self. cbn [colors_out with_colors]. apply Forall_forall.
      intros c Hc. apply list_elem_of_fmap in Hc as (q & -> & _).
      rewrite Forall_forall in Hhex. apply Hhex.
      eapply list_elem_of_lookup_2. by apply color_lookup. }
    exists self, (map (complement_of cutoff color_below color_above)
                      (colors_out self)).
    split; [by apply calc_colors_Ok|]. split; [|split; [|split]].
    + apply calc_complements_Ok. eapply Forall_impl; [exact Hout|].
      intros c. apply hex_color_readable.
    + by rewrite length_map.
    + subst self. cbn [colors_out with_colors]. by rewrite !length_map.
    + intros k color Hk.
      assert (Hc : is_hex_color color = true).
      { rewrite Forall_lookup in Hout. by eapply Hout. }
      assert (Hc' := Hc). unfold is_hex_color in Hc'.
      destruct color as [|h [|r1 [|r2 [|g1 [|g2 [|b1 [|b2 [|x rest]]]]]]]];
        cbn [list_ascii_of_string] in Hc'; try discriminate.
      apply andb_true_iff in Hc' as [Hh _].
      assert (h = "#"%char) as ->.
      { apply Z.eqb_eq in Hh. unfold Py.code in Hh.
        rewrite <- (ascii_N_embedding h).
        replace (N_of_ascii h) with 35%N by lia. reflexivity. }
      exists r1, r2, g1, g2, b1, b2. split; [done|]. split; [reflexivity|].
      rewrite list_lookup_fmap, Hk. cbn [fmap option_fmap option_map].
      f_equal. by apply complement_of_hex.
  - intros self Hout.
    exists (with_complements self (Some ["#ffffff"; "#000000"]%string)).
    split; [|reflexivity].
    rewrite calc_complements_unfold, Hout. reflexivity.
  - vm_compute. reflexivity.
  - intros self Hout.
    exists (with_complements self (Some ["#ffffff"%string])).
    split; [|reflexivity].
    rewrite calc_complements_unfold, Hout. reflexivity.
Qed.

Lemma complements_follow_luminance_witness :
  let self0 :=
    mkColorbin [1; 10; 4]%Q ["#000000"; "#ffffff"]%string true 1 10 (11 # 2)
      None [1; 11 # 2; 10]%Q [] [] [] [] None in
  colors_in self0 <> []
  /\ (length (colors_in self0) <= length (fenceposts self0))%nat
  /\ Forall (fun c => is_hex_color c = true) (colors_in self0)
  /\ exists self comps,
       _calc_colors self0 = Ok self
       /\ calc_complements self 0.5 "#ffffff" "#000000"
          = Ok (with_complements self (Some comps))
       /\ length comps = length (colors_out self)
       /\ length comps = length (quantities self0)
       /\ forall k color, colors_out self !! k = Some color ->
            exists r1 r2 g1 g2 b1 b2,
              color = String "#" (String r1 (String r2 (String g1 (String g2
                        (String b1 (String b2 EmptyString))))))
              /\ luminance color
                 = ((0.299 * Py.float_of_int (channel r1 r2)
                     + 0.587 * Py.float_of_int (channel g1 g2)
                     + 0.114 * Py.float_of_int (channel b1 b2))
                    / Py.float_of_int 256)%float
              /\ comps !! k
                 = Some (if (luminance color <? 0.5)%float
                         then "#ffffff" else "#000000")%string.
Proof.
  split; [discriminate|]. split; [simpl; lia|].
  split; [by repeat constructor|].
  apply complements_follow_luminance;
    [discriminate | simpl; lia | by repeat constructor].
Defined.

(** C8, as the spec has it, fails: a colour of nine characters is not a
    [#RRGGBB] value, nor is one of seven characters that does not start with
    [#], and [calc_complements] returns on both. *)
Lemma malformed_color_accepted :
  let self0 :=
    mkColorbin [1]%Q ["#000000ff"%string] true 1 1 1 None [] [] [] [] []
      None in
  (exists self self',
     recalc (fun _ => EmptyString) self0 true = Ok self
     /\ colors_out self = ["#000000ff"%string]
     /\ is_hex_color "#000000ff" = false
     /\ calc_complements self 0.5 "#ffffff" "#000000" = Ok self'
     /\ ~ ((exists e,
              calc_complements self 0.5 "#ffffff" "#000000" = Raise e)
           <-> Exists (fun c => is_hex_color c = false) (colors_out self)))
  /\ is_hex_color "x000000" = false
  /\ forall self, colors_out self = ["x000000"%string] ->
       calc_complements self 0.5 "#ffffff" "#000000"
       = Ok (with_complements self (Some ["#ffffff"%string])).
Proof.
  split; [|split; [reflexivity|]].
  - eexists _, _. split; [reflexivity|]. split; [reflexivity|].
    split; [reflexivity|]. split; [reflexivity|].
    intros [_ H]. destruct H as [e He]; [|discriminate He].
    constructor. reflexivity.
  - intros self Hout. rewrite calc_complements_unfold, Hout. reflexivity.
Qed.

(** C8, amended.  [calc_complements] raises [ValueError] exactly when, for
    some entry of [colors_out], one of the substrings [color[1:3]],
    [color[3:5]], [color[5:7]] is not accepted by [int(_, 16)], and it raises
    nothing else.  It returns when every entry is a [#RRGGBB] value and
    raises when an entry has fewer than six characters; the first character
    and those after the seventh are not examined. *)
Theorem complements_raise_iff_channel_unreadable (self : Colorbin)
    (cutoff : float) (color_below color_above : string) :
  (forall e,
     calc_complements self cutoff color_below color_above = Raise e
     <-> e = ValueError
         /\ Exists (fun c => ~ channels_readable c) (colors_out self))
  /\ (Forall (fun c => is_hex_color c = true) (colors_out self) ->
      exists self',
        calc_complements self cutoff color_below color_above = Ok self')
  /\ (forall c, c ∈ colors_out self -> (String.length c < 6)%nat ->
      calc_complements self cutoff color_below color_above
      = Raise ValueError)
  /\ (forall h h' r1 r2 g1 g2 b1 b2 rest rest',
        let digits s :=
          String r1 (String r2 (String g1 (String g2 (String b1
            (String b2 s))))) in
        grey_of (String h (digits rest)) = grey_of (String h' (digits rest'))).
Proof.
  split; [|split; [|split]].
  - intros e. rewrite calc_complements_unfold. split.
    + intros H.
      destruct (for_in _ _ _) as [comps|e'] eqn:Hloop; [discriminate|].
      cbn [bind] in H. injection H as <-.
      by apply complements_loop_Raise in Hloop.
    + intros H. apply (complements_loop_Raise cutoff color_below color_above
                         (colors_out self) [] e) in H.
      by rewrite H.
  - intros Hhex. eexists. apply calc_complements_Ok.
    eapply Forall_impl; [exact Hhex|]. intros c. apply hex_color_readable.
  - intros c Hin Hlen. rewrite calc_complements_unfold.
    assert (Hloop : for_in (colors_out self)
                      (complements_body cutoff color_below color_above) []
                    = Raise ValueError).
    { apply complements_loop_Raise. split; [done|].
      apply Exists_exists. exists c. split; [done|].
      intros (_ & _ & (v & Hv)).
      destruct c as [|h [|r1 [|r2 [|g1 [|g2 [|b1 rest]]]]]];
        simpl in Hlen; try lia; discriminate Hv. }
    by rewrite Hloop.
  - reflexivity.
Qed.


(** ** Bin counts in the quantile mode *)





















(** * Further properties of the class *)

(** ** [_calc_labels] *)

Definition label_of (float_str : Q -> string) (p : Q * Q) : string :=
  (float_str p.1 ++ "-" ++ float_str p.2)%string.

Lemma labels_loop_spec (float_str : Q -> string) (pairs : list (Q * Q))
    (ls fls : list string) (o : option Q) :
  fold_left (labels_step float_str) pairs (ls, fls, o)
  = (ls ++ map (label_of float_str) pairs,
     fls ++ map (fun p => float_str p.1) pairs,
     match last pairs with
     | Some p => Some p.2
     | None => o
     end).
Proof.
  revert ls fls o. induction pairs as [|[n1 n2] pairs IH]; intros ls fls o.
  - simpl. by rewrite !app_nil_r.
  - cbn [fold_left labels_step]. rewrite IH. cbn [map].
    rewrite <- !app_assoc. cbn [app]. f_equal.
    rewrite last_cons. by destruct (last pairs).
Qed.

Lemma zip_removelast_tail_fst (l : list Q) :
  map fst (zip (removelast l) (tail l)) = removelast l.
Proof.
  destruct l as [|x l]; [done|]. cbn [tail]. revert x.
  induction l as [|y l IH]; intros x; [done|].
  cbn [removelast zip zip_with map fst] in *. f_equal.
  specialize (IH y). destruct l; [done|]. exact IH.
Qed.

Lemma zip_removelast_tail_last (l : list Q) (p : Q * Q) :
  last (zip (removelast l) (tail l)) = Some p -> last l = Some p.2.
Proof.
  destruct l as [|x l]; [done|]. cbn [tail]. revert x.
  induction l as [|y l IH]; intros x; [done|].
  destruct l as [|z l].
  - simpl. by intros [= <-].
  - intros H. rewrite last_cons_cons.
    apply (IH y). revert H. cbn [removelast zip zip_with].
    destruct l as [|w l]; [done|]. by rewrite last_cons_cons.
Qed.

Lemma zip_removelast_tail_length (l : list Q) :
  length (zip (removelast l) (tail l)) = (length l - 1)%nat.
Proof.
  rewrite <- (length_map fst), zip_removelast_tail_fst.
  destruct l as [|x l]; [done|]. revert x.
  induction l as [|y l IH]; intros x; [done|].
  specialize (IH y). cbn [removelast length] in *.
  destruct l; [done|]. cbn [length] in *. lia.
Qed.

Lemma removelast_snoc_last (l : list Q) (x : Q) :
  last l = Some x -> removelast l ++ [x] = l.
Proof.
  induction l as [|y l IH]; [done|].
  destruct l as [|z l].
  - simpl. by intros [= ->].
  - rewrite last_cons_cons. intros H. specialize (IH H).
    cbn [removelast app] in *. by f_equal.
Qed.

Lemma removelast_lookup (l : list Q) (i : nat) :
  (S i < length l)%nat -> removelast l !! i = l !! i.
Proof.
  revert i. induction l as [|y l IH]; intros i Hi; [simpl in Hi; lia|].
  destruct l as [|z l]; [simpl in Hi; lia|].
  destruct i as [|i]; [done|].
  cbn [removelast]. rewrite !lookup_cons. apply IH. simpl in *. lia.
Qed.

Lemma calc_labels_spec (float_str : Q -> string) (self : Colorbin) :
  let pairs := zip (removelast (fenceposts self)) (tail (fenceposts self)) in
  (2 <= length (fenceposts self))%nat ->
  _calc_labels float_str self
  = Ok (with_labels self (map (label_of float_str) pairs)
          (map float_str (fenceposts self))).
Proof.
  intros pairs Hlen. unfold _calc_labels. fold pairs.
  rewrite labels_loop_spec.
  destruct (last pairs) as [p|] eqn:Hlast.
  - pose proof (zip_removelast_tail_last _ _ Hlast) as Hl.
    pose proof (removelast_snoc_last _ _ Hl) as Hsnoc.
    pose proof (zip_removelast_tail_fst (fenceposts self)) as Hfst.
    fold pairs in Hfst.
    assert (Hfls : map (fun p : Q * Q => float_str p.1) pairs
                   ++ [float_str p.2]
                   = map float_str (fenceposts self)).
    { transitivity (map float_str (removelast (fenceposts self) ++ [p.2]));
        [|by rewrite Hsnoc].
      rewrite map_app, <- Hfst, map_map. done. }
    cbn [app]. by rewrite Hfls.
  - apply last_None in Hlast.
    pose proof (zip_removelast_tail_length (fenceposts self)) as Hz.
    fold pairs in Hz. rewrite Hlast in Hz. simpl in Hz. lia.
Qed.

Lemma calc_labels_short (float_str : Q -> string) (self : Colorbin) :
  (length (fenceposts self) < 2)%nat ->
  _calc_labels float_str self = Raise NameError.
Proof.
  intros Hlen. unfold _calc_labels.
  by destruct (fenceposts self) as [|x [|y l]]; [| |simpl in Hlen; lia].
Qed.

(** X1.  [_calc_labels] gives one label ["lo-hi"] for each pair of
    neighbouring fenceposts and one label for each fencepost, and changes
    nothing else. *)
Theorem labels_pair_neighbouring_posts (float_str : Q -> string)
    (self : Colorbin) :
  (2 <= length (fenceposts self))%nat ->
  exists self',
    _calc_labels float_str self = Ok self'
    /\ self' = with_labels self (labels self') (fencepostlabels self')
    /\ length (labels self') = (length (fenceposts self) - 1)%nat
    /\ fencepostlabels self' = map float_str (fenceposts self)
    /\ forall i n1 n2,
         fenceposts self !! i = Some n1 ->
         fenceposts self !! S i = Some n2 ->
         labels self' !! i
         = Some (float_str n1 ++ "-" ++ float_str n2)%string.
Proof.
  intros Hlen. eexists. split; [by apply calc_labels_spec|].
  cbn [labels fencepostlabels with_labels].
  split; [done|]. split; [|split; [done|]].
  - by rewrite length_map, zip_removelast_tail_length.
  - intros i n1 n2 H1 H2. rewrite list_lookup_fmap.
    assert (Hp : zip (removelast (fenceposts self)) (tail (fenceposts self))
                 !! i = Some (n1, n2)).
    { apply lookup_zip_with_Some. exists n1, n2. split; [done|]. split.
      - rewrite removelast_lookup; [done|].
        by apply lookup_lt_Some in H2.
      - by rewrite lookup_tail. }
    by rewrite Hp.
Qed.

Lemma labels_pair_neighbouring_posts_witness :
  let self :=
    mkColorbin [1; 2]%Q ["#000000"; "#ffffff"]%string true 1 2 (3 # 2) None
      [1; 3 # 2; 2]%Q [] [] [] [] None in
  (2 <= length (fenceposts self))%nat
  /\ exists self',
       _calc_labels (fun _ => "x"%string) self = Ok self'
       /\ self' = with_labels self (labels self') (fencepostlabels self')
       /\ length (labels self') = (length (fenceposts self) - 1)%nat
       /\ fencepostlabels self'
          = map (fun _ => "x"%string) (fenceposts self)
       /\ forall i n1 n2,
            fenceposts self !! i = Some n1 ->
            fenceposts self !! S i = Some n2 ->
            labels self' !! i = Some ("x" ++ "-" ++ "x")%string.
Proof.
  split; [simpl; lia|].
  apply (labels_pair_neighbouring_posts (fun _ => "x"%string)). simpl. lia.
Defined.

(** X2.  [_calc_labels] fails exactly when there are fewer than two
    fenceposts: its loop then never binds [n2], and the use of [n2] after
    the loop is a [NameError]. *)
Theorem labels_need_two_posts (float_str : Q -> string) (self : Colorbin)
    (e : exn) :
  _calc_labels float_str self = Raise e
  <-> e = NameError /\ (length (fenceposts self) < 2)%nat.
Proof.
  destruct (decide (2 <= length (fenceposts self))%nat) as [Hlen|Hlen].
  - rewrite calc_labels_spec by done. split; [done | lia].
  - rewrite calc_labels_short by lia. split.
    + intros [= <-]. split; [done | lia].
    + by intros [-> _].
Qed.

(** ** [recalc] *)

(** The attributes the three steps of [recalc] read but never write. *)
Definition same_inputs (self other : Colorbin) : Prop :=
  quantities self = quantities other /\ colors_in self = colors_in other
  /\ proportional self = proportional other
  /\ bin_min self = bin_min other /\ bin_max self = bin_max other
  /\ bin_mid self = bin_mid other /\ decimals self = decimals other.

Lemma calc_fenceposts_stable (self a : Colorbin) :
  _calc_fenceposts self = Ok a ->
  exists posts,
    a = with_fenceposts self posts
    /\ forall other, same_inputs self other ->
         _calc_fenceposts other = Ok (with_fenceposts other posts).
Proof.
  intros Ha.
  assert (Hshape : forall s,
            exists r : result (list Q),
              _calc_fenceposts s
              = (let* posts := r in
                 Ok (with_fenceposts s (rounded (decimals s) posts)))
              /\ forall other, same_inputs s other ->
                   _calc_fenceposts other
                   = (let* posts := r in
                      Ok (with_fenceposts other
                            (rounded (decimals s) posts)))).
  { intros s. eexists. split.
    - unfold _calc_fenceposts.
      destruct (decimals s); [reflexivity|].
      match goal with
      | |- bind ?r _ = _ => destruct r; reflexivity
      end.
    - intros other (Hq & Hc & Hp & Hmin & Hmax & Hmid & Hd).
      unfold _calc_fenceposts.
      rewrite <- Hq, <- Hc, <- Hp, <- Hmin, <- Hmax, <- Hmid, <- Hd.
      destruct (decimals s); [reflexivity|].
      match goal with
      | |- bind ?r _ = _ => destruct r; reflexivity
      end. }
  destruct (Hshape self) as (r & Hself & Hother).
  rewrite Hself in Ha. destruct r as [posts|e]; [|discriminate].
  cbn [bind] in Ha. injection Ha as <-.
  exists (rounded (decimals self) posts). split; [done|].
  intros other Hsame. by rewrite (Hother other Hsame).
Qed.

Lemma calc_labels_stable (float_str : Q -> string) (a b : Colorbin) :
  _calc_labels float_str a = Ok b ->
  exists ls fls,
    b = with_labels a ls fls
    /\ forall other, fenceposts other = fenceposts a ->
         _calc_labels float_str other = Ok (with_labels other ls fls).
Proof.
  intros Hb.
  destruct (decide (2 <= length (fenceposts a))%nat) as [Hlen|Hlen].
  - rewrite calc_labels_spec in Hb by done. injection Hb as <-.
    eexists _, _. split; [reflexivity|]. intros other Hposts.
    rewrite calc_labels_spec by (rewrite Hposts; done).
    by rewrite Hposts.
  - rewrite calc_labels_short in Hb by lia. discriminate.
Qed.

Lemma for_in_ext {X S : Type} (body body' : X -> S -> result S)
    (xs : list X) (s : S) :
  (forall x s, x ∈ xs -> body x s = body' x s) ->
  for_in xs body s = for_in xs body' s.
Proof.
  revert s. induction xs as [|x xs IH]; intros s H; [done|].
  simpl. rewrite H by left. destruct (body' x s) as [s'|e]; [|done].
  simpl. apply IH. intros y s'' Hy. apply H. by right.
Qed.

Lemma calc_colors_stable (b c : Colorbin) :
  _calc_colors b = Ok c ->
  exists co bc,
    c = with_colors b co bc
    /\ forall other,
         quantities other = quantities b -> colors_in other = colors_in b ->
         fenceposts other = fenceposts b ->
         _calc_colors other = Ok (with_colors other co bc).
Proof.
  intros Hc.
  assert (Hloop : forall other,
            quantities other = quantities b -> colors_in other = colors_in b ->
            fenceposts other = fenceposts b ->
            for_in (quantities other) (colors_body other)
              ([], replicate (length (colors_in other)) 0)
            = for_in (quantities b) (colors_body b)
                ([], replicate (length (colors_in b)) 0)).
  { intros other Hq Hcol Hposts. rewrite Hq, Hcol. apply for_in_ext.
    intros q [co bc] _. unfold colors_body, find_bin.
    by rewrite Hcol, Hposts. }
  change (_calc_colors b)
    with (let* st := for_in (quantities b) (colors_body b)
                       ([], replicate (length (colors_in b)) 0) in
          let (co, bc) := st in Ok (with_colors b co bc)) in Hc.
  apply bind_Ok in Hc as ([co bc] & Hrun & Hc). injection Hc as <-.
  exists co, bc. split; [done|]. intros other Hq Hcol Hposts.
  change (_calc_colors other)
    with (let* st := for_in (quantities other) (colors_body other)
                       ([], replicate (length (colors_in other)) 0) in
          let (co, bc) := st in Ok (with_colors other co bc)).
  by rewrite (Hloop other Hq Hcol Hposts), Hrun.
Qed.

(** X3.  A second [recalc] changes nothing: when [recalc] has returned, the
    same call again, or [recalc(fenceposts=False)], returns the object it
    is given. *)
Theorem recalc_twice (float_str : Q -> string) (self self' : Colorbin)
    (fenceposts : bool) :
  recalc float_str self fenceposts = Ok self' ->
  recalc float_str self' fenceposts = Ok self'
  /\ recalc float_str self' false = Ok self'.
Proof.
  intros H. unfold recalc in H.
  apply bind_Ok in H as (a & Ha & H).
  apply bind_Ok in H as (b & Hb & Hc).
  destruct (calc_labels_stable _ _ _ Hb) as (ls & fls & -> & Hlabels).
  destruct (calc_colors_stable _ _ Hc) as (co & bc & -> & Hcolors).
  set (final := with_colors (with_labels a ls fls) co bc).
  assert (Hfalse : recalc float_str final false = Ok final).
  { unfold recalc. cbn [bind]. rewrite (Hlabels final) by done.
    cbn [bind]. by rewrite (Hcolors (with_labels final ls fls)). }
  split; [|exact Hfalse].
  destruct fenceposts; [|exact Hfalse].
  destruct (calc_fenceposts_stable _ _ Ha) as (posts & -> & Hposts).
  unfold recalc. rewrite (Hposts final) by (by repeat split).
  cbn [bind].
  change (with_fenceposts final posts) with final.
  exact Hfalse.
Qed.

Lemma recalc_twice_witness :
  let self :=
    mkColorbin [5; 1; 3]%Q ["#000000"; "#ffffff"]%string false 1 5 3 (Some 0)
      [] [] [] [] [] None in
  exists self',
    recalc (fun _ => EmptyString) self true = Ok self'
    /\ recalc (fun _ => EmptyString) self' true = Ok self'
    /\ recalc (fun _ => EmptyString) self' false = Ok self'.
Proof.
  eexists. split; [reflexivity|].
  apply (recalc_twice (fun _ => EmptyString)
           (mkColorbin [5; 1; 3]%Q ["#000000"; "#ffffff"]%string false 1 5 3
              (Some 0) [] [] [] [] [] None)).
  reflexivity.
Defined.

(** ** Order of the bins *)

Lemma bin_of_mono (posts : list Q) (P : nat) (q q' : Q) :
  (q <= q')%Q -> (bin_of posts P q <= bin_of posts P q')%nat.
Proof.
  intros Hq.
  destruct (bin_of_is_bin_index posts P q)
    as [[-> _]|(Hb & (post & Hpost & Hle) & _)]; [lia|].
  destruct (bin_of_is_bin_index posts P q')
    as [[_ Hn]|(Hb' & _ & Hn)].
  - exfalso. apply (Hn _ post Hb Hpost). lra.
  - destruct (decide (bin_of posts P q <= bin_of posts P q')%nat)
      as [?|Hlt]; [done|].
    exfalso. apply (Hn (bin_of posts P q) post); [lia | done | lra].
Qed.

(** X4.  The bin never decreases with the quantity: a larger quantity gets
    the same colour rank or a higher one. *)
Theorem find_bin_monotone (self : Colorbin) (q q' : Q) :
  (length (colors_in self) <= length (fenceposts self))%nat ->
  (q <= q')%Q ->
  exists b b',
    find_bin self q = Ok b /\ find_bin self q' = Ok b' /\ (b <= b')%nat.
Proof.
  intros Hlen Hq. eexists _, _.
  split; [by apply find_bin_Ok|]. split; [by apply find_bin_Ok|].
  by apply bin_of_mono.
Qed.

Lemma find_bin_monotone_witness :
  let self :=
    mkColorbin [1; 4; 9]%Q ["a"; "b"; "c"]%string true 1 9 5 None
      [1; 11 # 3; 19 # 3; 9]%Q [] [] [] [] None in
  (length (colors_in self) <= length (fenceposts self))%nat
  /\ (4 <= 9)%Q
  /\ exists b b',
       find_bin self 4 = Ok b /\ find_bin self 9 = Ok b' /\ (b <= b')%nat.
Proof.
  split; [simpl; lia|]. split; [discriminate|].
  apply find_bin_monotone; [simpl; lia | discriminate].
Defined.

(** ** Quantities and the posts of their bins *)








(** ** An empty palette *)

(** X7.  On an object whose palette is empty, [_calc_fenceposts] raises
    [ZeroDivisionError] in both modes, whatever the quantities are (the step
    is divided by [len(self.colors_in)]), and so does [recalc()]. *)
Theorem empty_palette_raises (float_str : Q -> string) (self : Colorbin) :
  colors_in self = [] ->
  _calc_fenceposts self = Raise ZeroDivisionError
  /\ recalc float_str self true = Raise ZeroDivisionError.
Proof.
  intros Hpal.
  assert (H : _calc_fenceposts self = Raise ZeroDivisionError).
  { unfold _calc_fenceposts. rewrite Hpal.
    by destruct (proportional self). }
  split; [done|]. unfold recalc. by rewrite H.
Qed.

Lemma empty_palette_raises_witness :
  let self :=
    mkColorbin [1; 2]%Q [] false 1 2 (3 # 2) (Some 1) [] [] [] [] [] None in
  colors_in self = []
  /\ _calc_fenceposts self = Raise ZeroDivisionError
  /\ recalc (fun _ => EmptyString) self true = Raise ZeroDivisionError.
Proof.
  split; [reflexivity|].
  apply (empty_palette_raises (fun _ => EmptyString)). reflexivity.
Defined.

(** ** More colours than quantities *)




(** ** [calc_complements] on any object *)

Lemma complements_loop_inv (cutoff : float) (below above : string)
    (colors acc out : list string) :
  for_in colors (complements_body cutoff below above) acc = Ok out ->
  exists comps,
    out = acc ++ comps /\ length comps = length colors
    /\ Forall (fun c => c = below \/ c = above) comps.
Proof.
  revert acc. induction colors as [|color colors IH]; intros acc;
    cbn [for_in].
  - intros [= <-]. exists []. by rewrite app_nil_r.
  - intros H. apply bind_Ok in H as (acc' & Hstep & Hrest).
    unfold complements_body in Hstep.
    apply bind_Ok in Hstep as (grey & _ & Hstep).
    destruct (IH _ Hrest) as (comps & -> & Hlen & Hall).
    destruct (grey <? cutoff)%float; injection Hstep as <-.
    + exists (below :: comps). rewrite <- app_assoc. simpl.
      split; [done|]. split; [by rewrite Hlen|]. constructor; [by left|done].
    + exists (above :: comps). rewrite <- app_assoc. simpl.
      split; [done|]. split; [by rewrite Hlen|]. constructor; [by right|done].
Qed.

(** X9.  Whenever [calc_complements] returns, on any object, it has set
    [complements] to a list as long as [colors_out] whose entries are
    [color_below] or [color_above], and has changed nothing else. *)
Theorem complements_one_per_color (self self' : Colorbin) (cutoff : float)
    (color_below color_above : string) :
  calc_complements self cutoff color_below color_above = Ok self' ->
  exists comps,
    self' = with_complements self (Some comps)
    /\ length comps = length (colors_out self)
    /\ Forall (fun c => c = color_below \/ c = color_above) comps.
Proof.
  rewrite calc_complements_unfold. intros H.
  apply bind_Ok in H as (out & Hloop & H). injection H as <-.
  apply complements_loop_inv in Hloop as (comps & -> & Hlen & Hall).
  by exists comps.
Qed.

Lemma complements_one_per_color_witness :
  let self :=
    mkColorbin [1; 2; 3]%Q ["#20f0a0"; "x000000"]%string true 1 3 2 None
      [1; 2; 3]%Q [] [] ["#20f0a0"; "x000000"; "x000000"]%string [1; 2]
      None in
  let self' :=
    with_complements self
      (Some ["#000000"; "#ffffff"; "#ffffff"]%string) in
  calc_complements self 0.5 "#ffffff" "#000000" = Ok self'
  /\ exists comps,
       self' = with_complements self (Some comps)
       /\ length comps = length (colors_out self)
       /\ Forall (fun c => c = "#ffffff"%string \/ c = "#000000"%string)
            comps.
Proof.
  split; [reflexivity|].
  apply (complements_one_per_color _ _ 0.5%float "#ffffff" "#000000").
  reflexivity.
Defined.

(** ** Construction once [np] is bound *)


